(** * A/B-testing simulator: the statistical core of [ab_test_sim.py] and
    the dashboard script [app.py], embedded and checked against its
    specification.

    Layout of the development:
    - [Float64]: Python's [float] / numpy's [float64], that is IEEE 754
      binary64 with round-to-nearest-even, on the Standard Library's
      executable specification of floating-point numbers;
    - [Py]: exceptions and the state-and-error monad in which the global
      generator [np.random] is threaded;
    - [Numpy], [Pandas], [Statsmodels]: the library calls the two source
      files make;
    - [AbTestSim]: [generate_data], [run_ab_test], [conversion_summary];
    - [App]: the dashboard script, its input guard and its sweep;
    - the properties. *)

From Stdlib Require Import ZArith List Bool Lia String Ascii Sorted Permutation.
From Stdlib Require Import Floats.SpecFloat.
Import ListNotations.

Local Open Scope Z_scope.

(* ------------------------------------------------------------------ *)
(** * Binary64 arithmetic *)

Module Float64.

Definition prec : Z := 53.
Definition emax : Z := 1024.

Definition float := spec_float.

Definition nan : float := S754_nan.
Definition pzero : float := S754_zero false.

Definition add : float -> float -> float := SFadd prec emax.
Definition sub : float -> float -> float := SFsub prec emax.
Definition mul : float -> float -> float := SFmul prec emax.
Definition div : float -> float -> float := SFdiv prec emax.
Definition sqrt : float -> float := SFsqrt prec emax.
Definition abs : float -> float := SFabs.
Definition opp : float -> float := SFopp.

Definition ltb : float -> float -> bool := SFltb.
Definition leb : float -> float -> bool := SFleb.
Definition eqb : float -> float -> bool := SFeqb.

(** Conversion of a Python [int] (numpy [int64]) to [float64]: the
    nearest double, [+0.0] for [0]. *)
Definition of_Z (z : Z) : float := binary_normalize prec emax z 0 false.

Definition one : float := of_Z 1.
Definition two : float := of_Z 2.

Definition is_nan (x : float) : bool :=
  match x with S754_nan => true | _ => false end.

Definition is_finite (x : float) : bool :=
  match x with S754_zero _ | S754_finite _ _ _ => true | _ => false end.

(** [np.floor] followed by the cast to an integer type, on a finite
    value; [None] on infinities and NaN (numpy's cast is undefined
    there). *)
Definition floor (x : float) : option Z :=
  match x with
  | S754_zero _ => Some 0
  | S754_finite s m e =>
      let v := if s then Z.neg m else Z.pos m in
      Some (if 0 <=? e then v * 2 ^ e else v / 2 ^ (- e))
  | _ => None
  end.

End Float64.

Import Float64.

(** A decimal literal [num / den] of the source ([0.10], [0.05]) and the
    quotient [k / 100] of two Python ints: the correctly rounded quotient
    of the two integers. *)
Definition decimal (num den : Z) : float := div (of_Z num) (of_Z den).

(* ------------------------------------------------------------------ *)
(** * Python exceptions and the generator monad *)

Module Py.

Inductive exn := ValueError | NotImplementedError.

Inductive result (A : Type) :=
| Ok (a : A)
| Raise (e : exn).
Arguments Ok {A} a.
Arguments Raise {A} e.

Definition raises {A} (r : result A) : bool :=
  match r with Ok _ => false | Raise _ => true end.

(** A computation that reads and advances a global state of type [S]
    (here the state of [np.random]) and may raise. *)
Definition M (S A : Type) : Type := S -> result (A * S).

Definition ret {S A} (a : A) : M S A := fun s => Ok (a, s).

Definition bind {S A B} (m : M S A) (k : A -> M S B) : M S B :=
  fun s => match m s with
           | Ok (a, s') => k a s'
           | Raise e => Raise e
           end.

Definition lift {S A} (r : result A) : M S A :=
  fun s => match r with
           | Ok a => Ok (a, s)
           | Raise e => Raise e
           end.

(** A [for] loop that appends one value per element. *)
Fixpoint for_each {S A B} (body : A -> M S B) (xs : list A) : M S (list B) :=
  match xs with
  | [] => ret []
  | x :: rest =>
      bind (body x) (fun y =>
      bind (for_each body rest) (fun ys => ret (y :: ys)))
  end.

End Py.

Import Py.

Declare Scope py_scope.
Delimit Scope py_scope with py.
Notation "x <- m ;; k" := (bind m (fun x => k))
  (at level 61, m at next level, right associativity) : py_scope.
Notation "' pat <- m ;; k" := (bind m (fun x => match x with pat => k end))
  (at level 61, pat pattern, m at next level, right associativity) : py_scope.
Local Open Scope py_scope.

(* ------------------------------------------------------------------ *)
(** * numpy *)

Module Numpy.

(** The generator behind [np.random] (a Mersenne Twister in numpy) is
    taken as an interface: a state and one draw from a binomial
    distribution. *)
Class RandomState := {
  rng : Type;
  binomial_draw : Z -> float -> rng -> Z * rng
}.

(** What numpy documents of a binomial draw: the number of successes
    in [n] trials. *)
Definition binomial_in_range `{RandomState} : Prop :=
  forall n p s, 0 <= n -> 0 <= fst (binomial_draw n p s) <= n.

Section Random.
Context `{RandomState}.

Fixpoint draws (n : Z) (p : float) (size : nat) (s : rng) : list Z * rng :=
  match size with
  | O => ([], s)
  | S k =>
      let (x, s1) := binomial_draw n p s in
      let (xs, s2) := draws n p k s1 in
      (x :: xs, s2)
  end.

(** Modelled from the spec: [np.random.binomial] belongs to numpy, which
    is not under src/.  [np.random.binomial(n, p, size)] makes [size]
    draws, and refuses a probability outside [0, 1] (NaN included), a
    negative [n] and a negative [size]: the input-range violations of
    sections 4.1 and 7, raised as Python's [ValueError]. *)
Definition random_binomial (n : Z) (p : float) (size : Z) : M rng (list Z) :=
  fun s =>
    if negb (leb pzero p && leb p one) then Raise ValueError
    else if n <? 0 then Raise ValueError
    else if size <? 0 then Raise ValueError
    else Ok (draws n p (Z.to_nat size) s).
End Random.

Definition int64_min : Z := - 2 ^ 63.

(** [astype(int)] after [np.floor]: the integer when it fits [int64],
    the minimal [int64] otherwise (x86-64). *)
Definition to_int64 (x : float) : Z :=
  match floor x with
  | Some z => if (int64_min <=? z) && (z <? 2 ^ 63) then z else int64_min
  | None => int64_min
  end.

(** [np.arange(0, num)] as integers *)
Definition arange (num : nat) : list Z := map Z.of_nat (seq 0 num).

Fixpoint set_last {A} (l : list A) (v : A) : list A :=
  match l with
  | [] => []
  | [_] => [v]
  | x :: rest => x :: set_last rest v
  end.

(** [np.linspace(start, stop, num, dtype=int)] on two ints, with the
    default [endpoint=True]: [num] floats [i * step + start] with
    [step = (stop - start) / (num - 1)], the last one replaced by
    [stop], floored and cast. *)
Definition linspace (start stop : Z) (num : nat) : list Z :=
  let div_ := Z.of_nat num - 1 in
  let delta := sub (of_Z stop) (of_Z start) in
  let y0 := map of_Z (arange num) in
  let y1 :=
    if 0 <? div_ then
      let step := div delta (of_Z div_) in
      if eqb step pzero
      then map (fun y => mul (div y (of_Z div_)) delta) y0
      else map (fun y => mul y step) y0
    else map (fun y => mul y delta) y0 in
  let y2 := map (fun y => add y (of_Z start)) y1 in
  let y3 := if (1 <? Z.of_nat num) then set_last y2 (of_Z stop) else y2 in
  map to_int64 y3.

End Numpy.

(* ------------------------------------------------------------------ *)
(** * pandas *)

Module Pandas.

(** A frame with the two columns of the source, ['group'] and
    ['converted'], one record per row. *)
Record row := { group : string; converted : Z }.

Definition DataFrame := list row.

(** [pd.DataFrame({'group': g, 'converted': xs})] with a scalar label *)
Definition frame_scalar (g : string) (xs : list Z) : DataFrame :=
  map (fun x => {| group := g; converted := x |}) xs.

(** [pd.DataFrame({'group': gs, 'converted': xs})] with two columns:
    [ValueError] when their lengths differ. *)
Definition frame_columns (gs : list string) (xs : list Z) : result DataFrame :=
  if Nat.eqb (List.length gs) (List.length xs)
  then Ok (map (fun gx => {| group := fst gx; converted := snd gx |}) (combine gs xs))
  else Raise ValueError.

(** [pd.concat(dfs, ignore_index=True)] *)
Definition concat (dfs : list DataFrame) : DataFrame := List.concat dfs.

(** The keys of [groupby('group')]: the distinct labels, sorted. *)
Fixpoint insert_key (k : string) (ks : list string) : list string :=
  match ks with
  | [] => [k]
  | k' :: rest =>
      match String.compare k k' with
      | Lt => k :: ks
      | Eq => ks
      | Gt => k' :: insert_key k rest
      end
  end.

Definition group_keys (df : DataFrame) : list string :=
  fold_right insert_key [] (map group df).

(** The ['converted'] values of the rows labelled [k], in row order. *)
Definition get_group (k : string) (df : DataFrame) : list Z :=
  map converted (filter (fun r => String.eqb (group r) k) df).

(** [df.groupby('group')['converted'].agg(f)]: one entry per key. *)
Definition groupby_agg {A} (f : list Z -> A) (df : DataFrame) : list (string * A) :=
  map (fun k => (k, f (get_group k df))) (group_keys df).

Definition sum (xs : list Z) : Z := fold_left Z.add xs 0.
Definition count (xs : list Z) : Z := Z.of_nat (List.length xs).
Definition mean (xs : list Z) : float := div (of_Z (sum xs)) (of_Z (count xs)).

(** [.values] of an aggregated series *)
Definition values {A} (ser : list (string * A)) : list A := map snd ser.

End Pandas.

(* ------------------------------------------------------------------ *)
(** * statsmodels and scipy *)

Module Statsmodels.

(** The standard normal distribution function [Phi] of scipy, taken as
    an interface. *)
Class NormalDist := { norm_cdf : float -> float }.

(** scipy's distribution function maps NaN to NaN. *)
Definition cdf_propagates_nan `{NormalDist} : Prop := norm_cdf nan = nan.

Section Ztest.
Context `{NormalDist}.

(** The two-sided p-value [2 * (1 - Phi(|z|))] *)
Definition two_sided_pvalue (z : float) : float :=
  mul two (sub one (norm_cdf (abs z))).

(** Modelled from the spec: [proportions_ztest] belongs to the
    statsmodels package, which is not under src/.  On two samples it
    computes, in float64, the statistic and p-value of section 4.2:
    [p1 = x1/n1], [p2 = x2/n2], pooled proportion
    [(x1+x2)/(n1+n2)], [SE = sqrt(pooled * (1 - pooled) * (1/n1 + 1/n2))],
    [z = (p1 - p2)/SE], [p = 2 * (1 - Phi(|z|))]; nothing is checked, so
    a zero [SE] gives NaN or an infinity.  With no hypothesised
    value it refuses one sample ([ValueError]) and any other number
    of samples ([NotImplementedError]). *)
Definition proportions_ztest (count nobs : list Z) : result (float * float) :=
  match count, nobs with
  | [x1; x2], [n1; n2] =>
      let p1 := div (of_Z x1) (of_Z n1) in
      let p2 := div (of_Z x2) (of_Z n2) in
      let p_pooled := div (of_Z (x1 + x2)) (of_Z (n1 + n2)) in
      let nobs_fact := add (div one (of_Z n1)) (div one (of_Z n2)) in
      let var_ := mul (mul p_pooled (sub one p_pooled)) nobs_fact in
      let std_diff := sqrt var_ in
      let zstat := div (sub p1 p2) std_diff in
      Ok (zstat, two_sided_pvalue zstat)
  | [_], [_] => Raise ValueError
  | _, _ => Raise NotImplementedError
  end.
End Ztest.

End Statsmodels.

Import Numpy Pandas Statsmodels.
Local Open Scope Z_scope.

Definition label_A : string := "A"%string.
Definition label_B : string := "B"%string.

(* ------------------------------------------------------------------ *)
(** * ab_test_sim.py *)

Module AbTestSim.

(** A row of the table [conversion_summary] returns: the group (the
    index), the columns ['sum'] and ['count'], and the added column
    ['conversion_rate']. *)
Record summary_row := {
  label : string;
  sum_ : Z;
  count_ : Z;
  conversion_rate : float
}.

(** What [visualize_results] hands to the plotting library: one bar per
    group (the frame [rates]), the p-value of the title, the axis labels
    and the limits of the y axis. *)
Record bar_chart := {
  bars : list (string * float);
  title_pval : float;
  ylabel : string;
  xlabel : string;
  ylim : float * float
}.

(** What the script prints and shows, in order. *)
Inductive printed :=
| print_summary (summary : list summary_row)
| print_z (stat : float)
| print_p (pval : float)
| print_significant
| print_not_significant
| show_plot (chart : bar_chart).

Section Sim.
Context `{RandomState} `{NormalDist}.

Definition generate_data (n_A n_B : Z) (p_A p_B : float) : M rng DataFrame :=
  group_A <- random_binomial 1 p_A n_A ;;
  group_B <- random_binomial 1 p_B n_B ;;
  let df_A := frame_scalar label_A group_A in
  let df_B := frame_scalar label_B group_B in
  let df := concat [df_A; df_B] in
  ret df.

Definition run_ab_test (df : DataFrame) : result (float * float) :=
  let conv_counts := values (groupby_agg sum df) in
  let total_counts := values (groupby_agg count df) in
  proportions_ztest conv_counts total_counts.

Definition conversion_summary (df : DataFrame) : result (list summary_row) :=
  let summary := groupby_agg (fun xs => (sum xs, count xs)) df in
  Ok (map (fun gsc =>
             {| label := fst gsc;
                sum_ := fst (snd gsc);
                count_ := snd (snd gsc);
                conversion_rate :=
                  div (of_Z (fst (snd gsc))) (of_Z (snd (snd gsc))) |})
          summary).

(** The simulation of the script body: generation, then the test. *)
Definition simulate (n_A n_B : Z) (p_A p_B : float) : M rng (float * float) :=
  data <- generate_data n_A n_B p_A p_B ;;
  lift (run_ab_test data).

Definition visualize_results (df : DataFrame) (pval : float) : bar_chart :=
  let rates := groupby_agg mean df in
  {| bars := rates;
     title_pval := pval;
     ylabel := "Conversion Rate"%string;
     xlabel := "Group"%string;
     ylim := (of_Z 0, of_Z 1) |}.

(** The script body (lines 49-72), from the four values that [int(input())]
    and [float(input())] return. *)
Definition main (n_A n_B : Z) (p_A p_B : float) : M rng (list printed) :=
  data <- generate_data n_A n_B p_A p_B ;;
  ' (stat, pval) <- lift (run_ab_test data) ;;
  summary <- lift (conversion_summary data) ;;
  ret [ print_summary summary;
        print_z stat;
        print_p pval;
        (if ltb pval (decimal 5 100) then print_significant else print_not_significant);
        show_plot (visualize_results data pval) ].

End Sim.

End AbTestSim.

(* ------------------------------------------------------------------ *)
(** * app.py *)

Module App.

(** The four widget values: two [number_input]s (ints within
    [0, 10000]) and two sliders (ints within [0, 100], divided by 100
    by the script). *)
Record inputs := {
  n_A : Z;
  pct_A : Z;
  n_B : Z;
  pct_B : Z
}.

Definition widget_range (i : inputs) : Prop :=
  0 <= n_A i <= 10000 /\ 0 <= n_B i <= 10000 /\
  0 <= pct_A i <= 100 /\ 0 <= pct_B i <= 100.

(** What section B of the page ("Simulation Results") shows, in order. *)
Inductive output :=
| write_rates (rates : list (string * float))
| write_z (stat : float)
| write_p (pval : float)
| success
| warning
| pyplot_bar (rates : list (string * float)) (pval : float)
| pyplot_line (sample_sizes : list Z) (p_values : list float)
| info.

Definition p_of (pct : Z) : float := decimal pct 100.

(** The guard of line 72 *)
Definition valid_inputs (i : inputs) : bool :=
  (0 <? n_A i) && (0 <? n_B i) &&
  ltb (of_Z 0) (p_of (pct_A i)) && ltb (of_Z 0) (p_of (pct_B i)).

Definition sample_sizes (i : inputs) : list Z :=
  linspace 100 (Z.max (n_A i) (n_B i)) 20.

Section Script.
Context `{RandomState} `{NormalDist}.

(** The body of the sweep loop, lines 119-124 *)
Definition sweep_point (p_A p_B : float) (size : Z) : M rng float :=
  grpA <- random_binomial 1 p_A size ;;
  grpB <- random_binomial 1 p_B size ;;
  let counts := [sum grpA; sum grpB] in
  let totals := [count grpA; count grpB] in
  ' (_, pv) <- lift (proportions_ztest counts totals) ;;
  ret pv.

Definition sweep (p_A p_B : float) (sizes : list Z) : M rng (list float) :=
  for_each (sweep_point p_A p_B) sizes.

Definition script (i : inputs) : M rng (list output) :=
  let p_A := p_of (pct_A i) in
  let p_B := p_of (pct_B i) in
  if valid_inputs i then
    group_A <- random_binomial 1 p_A (n_A i) ;;
    group_B <- random_binomial 1 p_B (n_B i) ;;
    df <- lift (frame_columns
                  (repeat label_A (Z.to_nat (n_A i)) ++ repeat label_B (Z.to_nat (n_B i)))
                  (group_A ++ group_B)) ;;
    let conv_counts := values (groupby_agg sum df) in
    let total_counts := values (groupby_agg count df) in
    ' (stat, pval) <- lift (proportions_ztest conv_counts total_counts) ;;
    let rates := groupby_agg mean df in
    p_values <- sweep p_A p_B (sample_sizes i) ;;
    ret [ write_rates rates;
          write_z stat;
          write_p pval;
          (if ltb pval (decimal 5 100) then success else warning);
          pyplot_bar rates pval;
          pyplot_line (sample_sizes i) p_values ]
  else
    ret [info].
End Script.

End App.

(* ------------------------------------------------------------------ *)
(** * Two concrete libraries, to run the model on *)

Module Concrete.

(** A linear congruential generator; a Bernoulli draw compares the
    next state, scaled to [0, 1), with [p]. *)
Definition lcg_next (s : Z) : Z := (1103515245 * s + 12345) mod 2 ^ 31.

Definition lcg_bernoulli (p : float) (s : Z) : Z * Z :=
  let s' := lcg_next s in
  (if ltb (div (of_Z s') (of_Z (2 ^ 31))) p then 1 else 0, s').

Fixpoint lcg_binomial (n : nat) (p : float) (s : Z) : Z * Z :=
  match n with
  | O => (0, s)
  | S k =>
      let (x, s1) := lcg_bernoulli p s in
      let (y, s2) := lcg_binomial k p s1 in
      (x + y, s2)
  end.

#[export] Instance lcg : RandomState := {|
  rng := Z;
  binomial_draw := fun n p s => lcg_binomial (Z.to_nat n) p s
|}.

(** A three-valued stand-in for the distribution function. *)
Definition step_cdf (x : float) : float :=
  match x with
  | S754_nan => nan
  | S754_zero _ => decimal 1 2
  | S754_infinity s | S754_finite s _ _ => if s then pzero else one
  end.

#[export] Instance step_normal : NormalDist := {| norm_cdf := step_cdf |}.

End Concrete.

(* ------------------------------------------------------------------ *)
(** * Vocabulary of the properties *)

Module Props.

(** The dataset holds exactly the two groups [g1 < g2]. *)
Definition two_groups (g1 g2 : string) (df : DataFrame) : Prop :=
  String.compare g1 g2 = Lt /\
  (forall r, In r df -> group r = g1 \/ group r = g2) /\
  (exists r, In r df /\ group r = g1) /\
  (exists r, In r df /\ group r = g2).

(** Every outcome is 0 or 1. *)
Definition binary_outcomes (df : DataFrame) : Prop :=
  forall r, In r df -> converted r = 0 \/ converted r = 1.

(** The rows of group [g]. *)
Definition successes (g : string) (df : DataFrame) : Z := sum (get_group g df).
Definition total (g : string) (df : DataFrame) : Z := count (get_group g df).

(** Whether some row carries the label [g] *)
Definition occurs (g : string) (df : DataFrame) : bool :=
  existsb (fun r => String.eqb (group r) g) df.

(** Exchange the labels [g1] and [g2] of a dataset. *)
Definition swap_label (g1 g2 g : string) : string :=
  if String.eqb g g1 then g2 else if String.eqb g g2 then g1 else g.

Definition swap_groups (g1 g2 : string) (df : DataFrame) : DataFrame :=
  map (fun r => {| group := swap_label g1 g2 (group r); converted := converted r |}) df.

(** A probability within [0, 1] *)
Definition probability (p : float) : bool := leb pzero p && leb p one.

(** A probability within the open interval (0, 1) *)
Definition open_probability (p : float) : bool := ltb pzero p && ltb p one.

(** The parameters the generator's contract admits. *)
Definition in_range (n_A n_B : Z) (p_A p_B : float) : bool :=
  (0 <=? n_A) && (0 <=? n_B) && probability p_A && probability p_B.

(** The integer parts of [num] evenly spaced reals from [start] to
    [stop]. *)
Definition spaced_floors (start stop : Z) (num : nat) : list Z :=
  map (fun k => start + (Z.of_nat k * (stop - start)) / (Z.of_nat num - 1)) (seq 0 num).

Section Trace.
Context `{RandomState} `{NormalDist}.

(** The p-values of a sweep, one loop body after the other: each
    starts from the generator state the previous one left and
    passes nothing else on. *)
Inductive sweep_trace (p_A p_B : float)
  : list Z -> rng -> list float -> rng -> Prop :=
| trace_nil s : sweep_trace p_A p_B [] s [] s
| trace_cons size sizes s pv s1 pvs s2 :
    App.sweep_point p_A p_B size s = Ok (pv, s1) ->
    sweep_trace p_A p_B sizes s1 pvs s2 ->
    sweep_trace p_A p_B (size :: sizes) s (pv :: pvs) s2.

(** The p-values of as many separate runs of generation followed by the
    test, [generate_data] with both sample sizes equal and then
    [run_ab_test]: each run starts from the generator state in which the
    run before it ends, and takes nothing else from it. *)
Inductive run_by_run (p_A p_B : float)
  : list Z -> rng -> list float -> rng -> Prop :=
| runs_nil s : run_by_run p_A p_B [] s [] s
| runs_cons size sizes s z pv s1 pvs s2 :
    AbTestSim.simulate size size p_A p_B s = Ok ((z, pv), s1) ->
    run_by_run p_A p_B sizes s1 pvs s2 ->
    run_by_run p_A p_B (size :: sizes) s (pv :: pvs) s2.
End Trace.

(** The second half of [binary_round_aux]: renormalise the rounded
    mantissa and pack it. *)
Definition pack (s : bool) (mr : Z) (e : Z) : float :=
  let '(mrs, e') := shr_fexp prec emax mr e loc_Exact in
  match shr_m mrs with
  | Z0 => S754_zero s
  | Zpos m => if Z.leb e' (emax - prec) then S754_finite s m e' else S754_infinity s
  | _ => S754_nan
  end.

(** Checking a decidable property on every integer of a range. *)
Definition upto (lo : Z) (n : nat) : list Z := map (fun k => lo + Z.of_nat k) (seq 0 n).

Fixpoint list_eqb (a b : list Z) : bool :=
  match a, b with
  | [], [] => true
  | x :: a', y :: b' => (x =? y) && list_eqb a' b'
  | _, _ => false
  end.

Definition sizes_checked (m : Z) : bool :=
  let sizes := linspace 100 m 20 in
  (Nat.eqb (List.length sizes) 20) && forallb (fun n => 0 <? n) sizes &&
  (if 100 <=? m then list_eqb sizes (spaced_floors 100 m 20) else true).

Definition p_of_checked (pct : Z) : bool :=
  probability (App.p_of pct) && Bool.eqb (ltb (of_Z 0) (App.p_of pct)) (0 <? pct).

(** The order of the labels: [a] sorts strictly before [b]. *)
Definition label_lt (a b : string) : Prop := String.compare a b = Lt.

Fixpoint non_increasing (l : list Z) : bool :=
  match l with
  | x :: (y :: _) as rest => (y <=? x) && non_increasing rest
  | _ => true
  end.

Definition low_sizes_checked (m : Z) : bool :=
  let sizes := linspace 100 m 20 in
  (hd 0 sizes =? 100) && (last sizes 0 =? m) &&
  forallb (fun n => (m <=? n) && (n <=? 100)) sizes && non_increasing sizes.

End Props.

Import AbTestSim App Props.

(* ------------------------------------------------------------------ *)
(** * Sample inputs *)

Module Samples.

Definition rowA (x : Z) : row := {| group := label_A; converted := x |}.
Definition rowB (x : Z) : row := {| group := label_B; converted := x |}.

(** Two groups, mixed outcomes *)
Definition mixed : DataFrame := [rowB 1; rowA 0; rowA 1; rowB 1; rowB 1].

(** Two groups, no success at all: pooled proportion 0 *)
Definition no_success : DataFrame := [rowA 0; rowB 0; rowB 0].

(** Group A has no record. *)
Definition only_B : DataFrame := [rowB 1; rowB 0].

(** Dashboard inputs: sample sizes below the floor of the sweep *)
Definition small_inputs : inputs :=
  {| n_A := 50; pct_A := 10; n_B := 50; pct_B := 12 |}.

Definition usual_inputs : inputs :=
  {| n_A := 1000; pct_A := 10; n_B := 500; pct_B := 12 |}.

(** Dashboard inputs: both conversion rates at 100 percent *)
Definition certain_inputs : inputs :=
  {| n_A := 100; pct_A := 100; n_B := 100; pct_B := 100 |}.

End Samples.

Import Concrete Samples.

(* ================================================================== *)
(** * Binary64 facts *)

Lemma digits_bounds (p : positive) :
  2 ^ (Z.pos (digits2_pos p) - 1) <= Z.pos p < 2 ^ Z.pos (digits2_pos p).
Proof.
  induction p as [p IH | p IH |]; cbn [digits2_pos].
  - rewrite Pos2Z.inj_succ.
    replace (Z.succ (Z.pos (digits2_pos p)) - 1) with (Z.succ (Z.pos (digits2_pos p) - 1)) by lia.
    rewrite !Z.pow_succ_r by lia. lia.
  - rewrite Pos2Z.inj_succ.
    replace (Z.succ (Z.pos (digits2_pos p)) - 1) with (Z.succ (Z.pos (digits2_pos p) - 1)) by lia.
    rewrite !Z.pow_succ_r by lia. lia.
  - cbn. lia.
Qed.

Lemma digits_unique (p : positive) (d : Z) :
  2 ^ (d - 1) <= Z.pos p < 2 ^ d -> Z.pos (digits2_pos p) = d.
Proof.
  intros [Hlo Hhi].
  pose proof (digits_bounds p) as [Blo Bhi].
  assert (0 < d).
  { destruct (Z.ltb_spec 0 d); auto.
    assert (2 ^ d <= 2 ^ 0) by (apply Z.pow_le_mono_r; lia). simpl in *. lia. }
  destruct (Z.lt_trichotomy (Z.pos (digits2_pos p)) d) as [Hlt | [Heq | Hgt]]; auto.
  - assert (2 ^ Z.pos (digits2_pos p) <= 2 ^ (d - 1)) by (apply Z.pow_le_mono_r; lia). lia.
  - assert (2 ^ d <= 2 ^ (Z.pos (digits2_pos p) - 1)) by (apply Z.pow_le_mono_r; lia). lia.
Qed.

Lemma shr_fexp_amount (m : positive) (e k : Z) (l : location) :
  Z.pos (digits2_pos m) = 53 + k -> 0 <= k -> -1074 <= e ->
  shr_fexp prec emax (Z.pos m) e l = shr (shr_record_of_loc (Z.pos m) l) e k.
Proof.
  intros Hd Hk He. unfold shr_fexp, fexp, emin, prec, emax. cbn [Zdigits2].
  rewrite Hd. f_equal. lia.
Qed.

Lemma loc_of_record_of_loc (m : Z) (l : location) :
  loc_of_shr_record (shr_record_of_loc m l) = l.
Proof. destruct l as [| []]; reflexivity. Qed.

Lemma shr_m_record_of_loc (m : Z) (l : location) :
  shr_m (shr_record_of_loc m l) = m.
Proof. destruct l as [| []]; reflexivity. Qed.

(** A mantissa of exactly 53 bits with an exponent in range is left as it is. *)
Lemma round_aux_canonical (s : bool) (m : positive) (e : Z) :
  Z.pos (digits2_pos m) = 53 -> -1074 <= e <= 971 ->
  binary_round_aux prec emax s (Z.pos m) e loc_Exact = S754_finite s m e.
Proof.
  intros Hd He. unfold binary_round_aux.
  rewrite (shr_fexp_amount m e 0) by lia. cbn [shr shr_record_of_loc shr_m loc_of_shr_record round_nearest_even].
  rewrite (shr_fexp_amount m e 0) by lia. cbn [shr shr_record_of_loc shr_m].
  unfold emax, prec. destruct (Z.leb_spec e (1024 - 53)); [reflexivity | lia].
Qed.

Lemma shr_1_m (r : shr_record) :
  0 <= shr_m r -> shr_m (shr_1 r) = shr_m r / 2.
Proof.
  destruct r as [m b c]. cbn [shr_m]. intros Hm.
  destruct m as [| [p | p |] |]; cbn [shr_1 shr_m]; try lia; try reflexivity.
  - apply Z.div_unique with (r := 1); lia.
  - apply Z.div_unique with (r := 0); lia.
Qed.

Lemma round_nearest_even_cases (m : Z) (l : location) :
  round_nearest_even m l = m \/ round_nearest_even m l = m + 1.
Proof.
  destruct l as [| []]; cbn [round_nearest_even]; auto.
  destruct (Z.even m); auto.
Qed.

Lemma round_aux_unfold (s : bool) (m e : Z) (l : location) :
  binary_round_aux prec emax s m e l =
  let '(mrs, e') := shr_fexp prec emax m e l in
  pack s (round_nearest_even (shr_m mrs) (loc_of_shr_record mrs)) e'.
Proof. reflexivity. Qed.

Lemma pack_shape (s : bool) (mr e : Z) :
  2 ^ 52 <= mr <= 2 ^ 53 -> -1074 <= e <= 970 ->
  exists m e', pack s mr e = S754_finite s m e' /\
               2 ^ 52 <= Z.pos m < 2 ^ 53 /\
               ((mr < 2 ^ 53 /\ Z.pos m = mr /\ e' = e) \/
                (mr = 2 ^ 53 /\ Z.pos m = 2 ^ 52 /\ e' = e + 1)).
Proof.
  intros Hm He. destruct mr as [| p |]; try lia.
  destruct (Z.eq_dec (Z.pos p) (2 ^ 53)) as [Heq | Hne].
  - injection Heq as ->. exists (4503599627370496%positive), (e + 1).
    unfold pack. rewrite (shr_fexp_amount _ e 1) by (try reflexivity; lia).
    cbn [shr shr_record_of_loc iter_pos shr_1 shr_m].
    unfold emax, prec. destruct (Z.leb_spec (e + 1) (1024 - 53)); [| lia].
    split; [reflexivity |]. split; [lia |]. right. lia.
  - exists p, e. unfold pack.
    rewrite (shr_fexp_amount _ e 0) by (try lia; apply digits_unique; lia).
    cbn [shr shr_record_of_loc shr_m].
    unfold emax, prec. destruct (Z.leb_spec e (1024 - 53)); [| lia].
    split; [reflexivity |]. split; [lia |]. left. lia.
Qed.

(** Rounding a mantissa of 53 or 54 bits: the result is a normal number
    whose exponent grows by at most two. *)
Lemma round_aux_shape (s : bool) (q e : Z) (l : location) :
  2 ^ 52 <= q < 2 ^ 54 -> -1074 <= e <= 960 ->
  exists m e', binary_round_aux prec emax s q e l = S754_finite s m e' /\
               2 ^ 52 <= Z.pos m < 2 ^ 53 /\
               e <= e' <= e + 2 /\
               (e' = e + 2 -> Z.pos m = 2 ^ 52) /\
               (q < 2 ^ 53 -> e' <= e + 1 /\ (e' = e + 1 -> Z.pos m = 2 ^ 52)).
Proof.
  intros Hq He. destruct q as [| p |]; try lia.
  rewrite round_aux_unfold.
  destruct (Z.lt_ge_cases (Z.pos p) (2 ^ 53)) as [Hlt | Hge].
  - rewrite (shr_fexp_amount p e 0) by (try lia; apply digits_unique; lia).
    cbn [shr]. rewrite shr_m_record_of_loc, loc_of_record_of_loc.
    destruct (round_nearest_even_cases (Z.pos p) l) as [-> | ->].
    + destruct (pack_shape s (Z.pos p) e) as (m & e' & -> & Hm & Hc); try lia.
      exists m, e'. repeat split; try tauto; lia.
    + destruct (pack_shape s (Z.pos p + 1) e) as (m & e' & -> & Hm & Hc); try lia.
      exists m, e'. repeat split; try tauto; lia.
  - rewrite (shr_fexp_amount p e 1) by (try lia; apply digits_unique; lia).
    cbn [shr iter_pos].
    set (r := shr_1 (shr_record_of_loc (Z.pos p) l)).
    assert (Hr : shr_m r = Z.pos p / 2).
    { unfold r. rewrite shr_1_m; rewrite shr_m_record_of_loc; lia. }
    assert (Hb : 2 ^ 52 <= shr_m r < 2 ^ 53).
    { rewrite Hr. split.
      - apply Z.div_le_lower_bound; lia.
      - apply Z.div_lt_upper_bound; lia. }
    destruct (round_nearest_even_cases (shr_m r) (loc_of_shr_record r)) as [-> | ->].
    + destruct (pack_shape s (shr_m r) (e + 1)) as (m & e' & -> & Hm & Hc); try lia.
      exists m, e'. repeat split; try tauto; lia.
    + destruct (pack_shape s (shr_m r + 1) (e + 1)) as (m & e' & -> & Hm & Hc); try lia.
      exists m, e'. repeat split; try tauto; lia.
Qed.

Lemma iter_xO_pow (p k : positive) :
  Z.pos (Pos.iter xO p k) = Z.pos p * 2 ^ Z.pos k.
Proof.
  induction k as [| k IH] using Pos.peano_ind.
  - cbn. lia.
  - rewrite Pos.iter_succ, Pos2Z.inj_xO, IH, Pos2Z.inj_succ, Z.pow_succ_r by lia. lia.
Qed.

(** The double of an integer below [2^53]: the integer itself, on a
    53-bit mantissa. *)
Lemma of_Z_shape (n : Z) :
  0 < n < 2 ^ 53 ->
  exists m e, of_Z n = S754_finite false m e /\
              2 ^ 52 <= Z.pos m < 2 ^ 53 /\ -52 <= e <= 0 /\
              Z.pos m = n * 2 ^ (- e).
Proof.
  intros Hn. destruct n as [| p |]; try lia.
  pose proof (digits_bounds p) as Hd.
  set (d := Z.pos (digits2_pos p)) in *.
  assert (Hd53 : 1 <= d <= 53).
  { split; [unfold d; lia |].
    destruct (Z.le_gt_cases d 53); auto.
    assert (2 ^ 53 <= 2 ^ (d - 1)) by (apply Z.pow_le_mono_r; lia). lia. }
  unfold of_Z, binary_normalize, binary_round, shl_align.
  fold d. replace (fexp prec emax (d + 0)) with (d - 53)
    by (unfold fexp, emin, prec, emax; lia).
  destruct (d - 53 - 0) as [| k | k] eqn:Hk; try lia.
  - exists p, 0. rewrite round_aux_canonical by (fold d; lia).
    replace d with 53 in Hd by lia. cbn in Hd |- *. repeat split; lia.
  - assert (Hm : Z.pos (Pos.iter xO p k) = Z.pos p * 2 ^ (53 - d)).
    { rewrite iter_xO_pow. f_equal. f_equal. lia. }
    assert (Hp : 2 ^ (d - 1) * 2 ^ (53 - d) = 2 ^ 52).
    { rewrite <- Z.pow_add_r by lia. f_equal. lia. }
    assert (Hp' : 2 ^ d * 2 ^ (53 - d) = 2 ^ 53).
    { rewrite <- Z.pow_add_r by lia. f_equal. lia. }
    assert (0 < 2 ^ (53 - d)) by (apply Z.pow_pos_nonneg; lia).
    assert (Hb : 2 ^ 52 <= Z.pos (Pos.iter xO p k) < 2 ^ 53).
    { rewrite Hm. split; nia. }
    exists (Pos.iter xO p k), (d - 53).
    rewrite round_aux_canonical by (try lia; apply digits_unique; lia).
    repeat split; try lia.
    rewrite Hm. f_equal. f_equal. lia.
Qed.

Lemma one_eq : one = S754_finite false 4503599627370496 (-52).
Proof. reflexivity. Qed.

(** [x / x = 1.0] for every finite nonzero [x]. *)
Lemma div_self (s : bool) (m : positive) (e : Z) :
  div (S754_finite s m e) (S754_finite s m e) = one.
Proof.
  unfold div, SFdiv, SFdiv_core_binary.
  replace (Z.min (fexp prec emax (Zdigits2 (Z.pos m) + e - (Zdigits2 (Z.pos m) + e))) (e - e))
    with (-53).
  2:{ replace (Zdigits2 (Z.pos m) + e - (Zdigits2 (Z.pos m) + e)) with 0 by lia.
      replace (e - e) with 0 by lia. reflexivity. }
  replace (e - e - -53) with 53 by lia.
  assert (Hq : Z.div_eucl (Z.shiftl (Z.pos m) 53) (Z.pos m) = (2 ^ 53, 0)).
  { rewrite Z.shiftl_mul_pow2 by lia.
    pose proof (Z.div_eucl_eq (Z.pos m * 2 ^ 53) (Z.pos m)) as Heq.
    pose proof (Z.mod_pos_bound (Z.pos m * 2 ^ 53) (Z.pos m)) as Hb.
    unfold Z.modulo, Z.div in *.
    destruct (Z.div_eucl (Z.pos m * 2 ^ 53) (Z.pos m)) as [q r].
    specialize (Heq ltac:(lia)). specialize (Hb ltac:(lia)).
    assert (q = 2 ^ 53) by nia. subst q. f_equal. lia. }
  rewrite Hq.
  assert (Hl : new_location (Z.pos m) 0 = loc_Exact).
  { unfold new_location, new_location_even, new_location_odd.
    destruct (Z.even (Z.pos m)); reflexivity. }
  rewrite Hl. destruct s; reflexivity.
Qed.

(** The quotient of two normal numbers, the first one the smaller, is at
    most [1.0]: its exponent is below that of [1.0], or it is [1.0]. *)
Lemma div_normal_shape (m1 m2 : positive) (e1 e2 : Z) :
  2 ^ 52 <= Z.pos m1 < 2 ^ 53 -> 2 ^ 52 <= Z.pos m2 < 2 ^ 53 ->
  -52 <= e1 <= 0 -> -52 <= e2 <= 0 ->
  e1 < e2 \/ (e1 = e2 /\ Z.pos m1 < Z.pos m2) ->
  exists m e, div (S754_finite false m1 e1) (S754_finite false m2 e2)
              = S754_finite false m e /\
              (e <= -53 \/ (e = -52 /\ m = 4503599627370496%positive)).
Proof.
  intros H1 H2 He1 He2 Hlt.
  unfold div, SFdiv, SFdiv_core_binary. cbn [Zdigits2 xorb].
  rewrite (digits_unique m1 53), (digits_unique m2 53) by lia.
  replace (Z.min (fexp prec emax (53 + e1 - (53 + e2))) (e1 - e2)) with (e1 - e2 - 53)
    by (unfold fexp, emin, prec, emax; lia).
  replace (e1 - e2 - (e1 - e2 - 53)) with 53 by lia.
  rewrite Z.shiftl_mul_pow2 by lia.
  pose proof (Z.div_eucl_eq (Z.pos m1 * 2 ^ 53) (Z.pos m2)) as Heq.
  pose proof (Z.mod_pos_bound (Z.pos m1 * 2 ^ 53) (Z.pos m2)) as Hb.
  unfold Z.modulo, Z.div in *.
  destruct (Z.div_eucl (Z.pos m1 * 2 ^ 53) (Z.pos m2)) as [q r].
  specialize (Heq ltac:(lia)). specialize (Hb ltac:(lia)).
  assert (Hq : 2 ^ 52 <= q < 2 ^ 54) by nia.
  assert (Hq' : Z.pos m1 < Z.pos m2 -> q < 2 ^ 53) by nia.
  destruct (round_aux_shape false q (e1 - e2 - 53) (new_location (Z.pos m2) r))
    as (m & e & -> & Hm & He & Htop & Hlow); try lia.
  exists m, e. split; [reflexivity |].
  destruct Hlt as [Hlt | [Heq' Hlt]].
  - destruct (Z.le_gt_cases e (-53)) as [Hle | Hgt]; [left; lia | right].
    assert (e = -52) by lia. split; [lia |].
    assert (Z.pos m = 2 ^ 52) by (apply Htop; lia). lia.
  - destruct (Hlow (Hq' Hlt)) as [Hle Hone].
    destruct (Z.le_gt_cases e (-53)) as [Hle' | Hgt]; [left; lia | right].
    assert (e = -52) by lia. split; [lia |].
    assert (Z.pos m = 2 ^ 52) by (apply Hone; lia). lia.
Qed.

(** A rate [s / c] with [0 <= s <= c] is a double within [0, 1]. *)
Lemma rate_within_unit (s c : Z) :
  0 <= s <= c -> 0 < c < 2 ^ 53 ->
  leb pzero (div (of_Z s) (of_Z c)) = true /\
  leb (div (of_Z s) (of_Z c)) one = true.
Proof.
  intros Hs Hc.
  destruct (of_Z_shape c Hc) as (m2 & e2 & E2 & Hm2 & He2 & Hv2).
  destruct (Z.eq_dec s 0) as [-> | Hs0].
  - rewrite E2. split; reflexivity.
  - destruct (Z.eq_dec s c) as [-> | Hsc].
    + rewrite E2, div_self. split; reflexivity.
    + destruct (of_Z_shape s ltac:(lia)) as (m1 & e1 & E1 & Hm1 & He1 & Hv1).
      rewrite E1, E2.
      assert (P1 : 0 < 2 ^ (- e1)) by (apply Z.pow_pos_nonneg; lia).
      assert (P2 : 0 < 2 ^ (- e2)) by (apply Z.pow_pos_nonneg; lia).
      assert (Hord : e1 < e2 \/ (e1 = e2 /\ Z.pos m1 < Z.pos m2)).
      { destruct (Z.lt_trichotomy e1 e2) as [Hl | [Hl | Hl]]; [left; exact Hl | right | exfalso].
        - subst e2. split; [reflexivity | nia].
        - assert (2 * 2 ^ (- e1) <= 2 ^ (- e2)).
          { replace (- e2) with (Z.succ (- e1) + (e1 - e2 - 1)) by lia.
            rewrite Z.pow_add_r, Z.pow_succ_r by lia.
            assert (0 < 2 ^ (e1 - e2 - 1)) by (apply Z.pow_pos_nonneg; lia). nia. }
          assert (s * 2 ^ (- e1) <= c * 2 ^ (- e1)) by nia.
          assert (c * (2 * 2 ^ (- e1)) <= c * 2 ^ (- e2)) by nia.
          lia. }
      destruct (div_normal_shape m1 m2 e1 e2 Hm1 Hm2 He1 He2 Hord) as (m & e & -> & Hsh).
      rewrite one_eq. unfold leb, SFleb, pzero. cbn [SFcompare].
      split; [reflexivity |].
      destruct Hsh as [Hle | [-> ->]]; [| reflexivity].
      destruct (Z.compare_spec e (-52)); try reflexivity; lia.
Qed.

(** The sign given to a rounding only shows in the sign of its result. *)
Lemma abs_round_aux (s s' : bool) (m e : Z) (l : location) :
  abs (binary_round_aux prec emax s m e l) = abs (binary_round_aux prec emax s' m e l).
Proof.
  unfold binary_round_aux.
  destruct (shr_fexp prec emax m e l) as [mrs e'].
  destruct (shr_fexp prec emax _ e' loc_Exact) as [mrs' e''].
  destruct (shr_m mrs'); try reflexivity.
  destruct (Z.leb e'' (emax - prec)); reflexivity.
Qed.

Lemma abs_normalize_opp (m e : Z) :
  abs (binary_normalize prec emax (- m) e false) = abs (binary_normalize prec emax m e false).
Proof.
  destruct m as [| p | p]; cbn [Z.opp binary_normalize]; try reflexivity;
    unfold binary_round;
    destruct (shl_align p e _) as [mz ez]; apply abs_round_aux.
Qed.

(** [|a - b| = |b - a|] *)
Lemma abs_sub_swap (a b : float) : abs (sub a b) = abs (sub b a).
Proof.
  destruct a as [sa | sa | | sa ma ea], b as [sb | sb | | sb mb eb];
    try (destruct sa, sb; reflexivity); try reflexivity.
  unfold sub, SFsub. rewrite (Z.min_comm eb ea).
  rewrite <- abs_normalize_opp. f_equal. f_equal. lia.
Qed.

(** [a + b = b + a] *)
Lemma add_swap (a b : float) : add a b = add b a.
Proof.
  destruct a as [sa | sa | | sa ma ea], b as [sb | sb | | sb mb eb];
    try (destruct sa, sb; reflexivity); try reflexivity.
  unfold add, SFadd. rewrite (Z.min_comm eb ea). f_equal. lia.
Qed.

(** [|a / d|] only depends on [|a|]. *)
Lemma abs_div_abs (a a' d : float) :
  abs a = abs a' -> abs (div a d) = abs (div a' d).
Proof.
  intros Ha.
  destruct a as [sa | sa | | sa ma ea], a' as [sa' | sa' | | sa' ma' ea'];
    try discriminate Ha; destruct d as [sd | sd | | sd md ed]; try reflexivity.
  injection Ha as -> ->.
  unfold div, SFdiv.
  destruct (SFdiv_core_binary prec emax (Z.pos ma') ea' (Z.pos md) ed) as [[mz ez] lz].
  apply abs_round_aux.
Qed.

(* ================================================================== *)
(** * Grouping *)

Lemma compare_refl (g : string) : String.compare g g = Eq.
Proof.
  pose proof (String.compare_antisym g g) as H.
  destruct (String.compare g g); simpl in H; congruence.
Qed.

Lemma compare_lt_neq (g1 g2 : string) : String.compare g1 g2 = Lt -> g1 <> g2.
Proof. intros H ->. rewrite compare_refl in H. discriminate. Qed.

Lemma compare_lt_gt (g1 g2 : string) :
  String.compare g1 g2 = Lt -> String.compare g2 g1 = Gt.
Proof. intros H. rewrite String.compare_antisym, H. reflexivity. Qed.

Lemma insert_key_In (k x : string) (ks : list string) :
  In x (insert_key k ks) <-> x = k \/ In x ks.
Proof.
  induction ks as [| k' ks IH]; cbn [insert_key].
  - simpl. intuition.
  - destruct (String.compare k k') eqn:E.
    + apply String.compare_eq_iff in E. subst. simpl. intuition.
    + simpl. intuition.
    + simpl. rewrite IH. intuition.
Qed.

(** The keys of [groupby] are the labels that occur. *)
Lemma group_keys_In (k : string) (df : DataFrame) :
  In k (group_keys df) <-> exists r, In r df /\ group r = k.
Proof.
  unfold group_keys. induction df as [| r df IH]; cbn [map fold_right].
  - simpl. split; [tauto | intros (r & [] & _)].
  - rewrite insert_key_In, IH. split.
    + intros [-> | (r' & Hin & Hg)]; [exists r | exists r']; simpl; auto.
    + intros (r' & [<- | Hin] & Hg); [left | right; exists r']; auto.
Qed.

Lemma occurs_spec (g : string) (df : DataFrame) :
  occurs g df = true <-> exists r, In r df /\ group r = g.
Proof.
  unfold occurs. rewrite existsb_exists.
  split; intros (r & Hin & Hg); exists r; split; auto; apply String.eqb_eq; auto.
Qed.

(** With labels among [g1 < g2], the keys are those of the two that occur, in order. *)
Lemma group_keys_two (g1 g2 : string) (df : DataFrame) :
  String.compare g1 g2 = Lt ->
  (forall r, In r df -> group r = g1 \/ group r = g2) ->
  group_keys df =
    (if occurs g1 df then [g1] else []) ++ (if occurs g2 df then [g2] else []).
Proof.
  intros Hlt Hall.
  pose proof (compare_lt_gt _ _ Hlt) as Hgt.
  pose proof (compare_lt_neq _ _ Hlt) as Hne.
  assert (E12 : String.eqb g1 g2 = false) by (apply String.eqb_neq; auto).
  assert (E21 : String.eqb g2 g1 = false) by (apply String.eqb_neq; auto).
  induction df as [| r df IH]; [reflexivity |].
  unfold group_keys in *. cbn [map fold_right occurs existsb].
  rewrite IH by (intros; apply Hall; right; auto).
  fold (occurs g1 df) (occurs g2 df).
  destruct (Hall r (or_introl eq_refl)) as [-> | ->];
    rewrite ?String.eqb_refl, ?E12, ?E21; cbn [orb];
    destruct (occurs g1 df), (occurs g2 df); cbn [app insert_key];
    rewrite ?compare_refl, ?Hlt, ?Hgt; cbn [insert_key];
    rewrite ?compare_refl, ?Hlt, ?Hgt; reflexivity.
Qed.

Lemma two_groups_keys (g1 g2 : string) (df : DataFrame) :
  two_groups g1 g2 df -> group_keys df = [g1; g2].
Proof.
  intros (Hlt & Hall & H1 & H2).
  rewrite (group_keys_two g1 g2) by assumption.
  apply occurs_spec in H1, H2. rewrite H1, H2. reflexivity.
Qed.

Lemma sum_from (xs : list Z) (a : Z) : fold_left Z.add xs a = a + sum xs.
Proof.
  unfold sum. revert a. induction xs as [| x xs IH]; intros a; cbn [fold_left].
  - lia.
  - rewrite (IH (a + x)), (IH (0 + x)). lia.
Qed.

Lemma sum_cons (x : Z) (xs : list Z) : sum (x :: xs) = x + sum xs.
Proof. unfold sum at 1. cbn [fold_left]. rewrite sum_from. lia. Qed.

Lemma sum_app (xs ys : list Z) : sum (xs ++ ys) = sum xs + sum ys.
Proof.
  induction xs as [| x xs IH]; [reflexivity |].
  cbn [app]. rewrite !sum_cons, IH. lia.
Qed.

Lemma count_cons (x : Z) (xs : list Z) : count (x :: xs) = 1 + count xs.
Proof. unfold count. cbn [List.length]. lia. Qed.

(** With outcomes in [{0, 1}], a sum lies between 0 and the count. *)
Lemma sum_bounds (xs : list Z) :
  (forall x, In x xs -> 0 <= x <= 1) -> 0 <= sum xs <= count xs.
Proof.
  induction xs as [| x xs IH]; intros Hx.
  - cbn. lia.
  - rewrite sum_cons, count_cons.
    specialize (IH (fun y Hy => Hx y (or_intror Hy))).
    specialize (Hx x (or_introl eq_refl)). lia.
Qed.

Lemma sum_all_zero (xs : list Z) : (forall x, In x xs -> x = 0) -> sum xs = 0.
Proof.
  induction xs as [| x xs IH]; intros Hx; [reflexivity |].
  rewrite sum_cons, IH by (intros; apply Hx; right; auto).
  rewrite (Hx x) by (left; auto). lia.
Qed.

Lemma sum_all_one (xs : list Z) : (forall x, In x xs -> x = 1) -> sum xs = count xs.
Proof.
  induction xs as [| x xs IH]; intros Hx; [reflexivity |].
  rewrite sum_cons, count_cons, IH by (intros; apply Hx; right; auto).
  rewrite (Hx x) by (left; auto). lia.
Qed.

Lemma get_group_In (g : string) (df : DataFrame) (x : Z) :
  In x (get_group g df) -> exists r, In r df /\ group r = g /\ converted r = x.
Proof.
  unfold get_group. rewrite in_map_iff. intros (r & Hx & Hin).
  apply filter_In in Hin as [Hin Hg]. apply String.eqb_eq in Hg. eauto.
Qed.

Lemma count_occurs (g : string) (df : DataFrame) :
  (exists r, In r df /\ group r = g) -> 1 <= count (get_group g df).
Proof.
  intros (r & Hin & Hg). unfold count, get_group.
  induction df as [| r' df IH]; [destruct Hin |].
  cbn [filter]. destruct Hin as [-> | Hin].
  - rewrite Hg, String.eqb_refl. cbn [map List.length]. lia.
  - destruct (String.eqb (group r') g); cbn [map List.length]; [lia | auto].
Qed.

Lemma count_le_length (g : string) (df : DataFrame) :
  count (get_group g df) <= Z.of_nat (List.length df).
Proof.
  unfold count, get_group. rewrite length_map.
  pose proof (filter_length_le (fun r => String.eqb (group r) g) df). lia.
Qed.

(* ================================================================== *)
(** * The generator *)

Lemma ltb_leb (a b : float) : ltb a b = true -> leb a b = true.
Proof. unfold ltb, leb, SFltb, SFleb. destruct (SFcompare a b) as [[] |]; auto. Qed.

Lemma open_probability_probability (p : float) :
  open_probability p = true -> probability p = true.
Proof.
  unfold open_probability, probability. rewrite !andb_true_iff.
  intros [? ?]. split; apply ltb_leb; assumption.
Qed.

Section Generator.
Context `{RandomState}.

Lemma draws_length (n : Z) (p : float) (k : nat) (s : rng) :
  List.length (fst (draws n p k s)) = k.
Proof.
  revert s. induction k as [| k IH]; intros s; cbn [draws]; [reflexivity |].
  destruct (binomial_draw n p s) as [x s1]. specialize (IH s1).
  destruct (draws n p k s1) as [xs s2]. cbn [fst List.length] in *. congruence.
Qed.

Lemma draws_range (n : Z) (p : float) (k : nat) (s : rng) :
  binomial_in_range -> 0 <= n ->
  forall x, In x (fst (draws n p k s)) -> 0 <= x <= n.
Proof.
  intros Hlaw Hn. revert s. induction k as [| k IH]; intros s x; cbn [draws].
  - intros [].
  - pose proof (Hlaw n p s Hn) as Hx.
    destruct (binomial_draw n p s) as [y s1]. specialize (IH s1).
    destruct (draws n p k s1) as [xs s2]. cbn [fst] in *.
    intros [<- | Hin]; auto.
Qed.

Lemma random_binomial_ok (p : float) (size : Z) (s : rng) :
  probability p = true -> 0 <= size ->
  random_binomial 1 p size s = Ok (draws 1 p (Z.to_nat size) s).
Proof.
  intros Hp Hs. unfold random_binomial. unfold probability in Hp. rewrite Hp.
  cbn [negb]. destruct (Z.ltb_spec size 0); [lia | reflexivity].
Qed.

Lemma random_binomial_raise (p : float) (size : Z) (s : rng) :
  probability p = false \/ size < 0 ->
  random_binomial 1 p size s = Raise ValueError.
Proof.
  intros Hbad. unfold random_binomial. unfold probability in Hbad.
  destruct (leb pzero p && leb p one); cbn [negb]; [| reflexivity].
  destruct Hbad as [Hbad | Hbad]; [discriminate |].
  cbn. destruct (Z.ltb_spec size 0); [reflexivity | lia].
Qed.

(** What [generate_data] returns on admissible parameters. *)
Lemma generate_data_ok (n_A n_B : Z) (p_A p_B : float) (s : rng) :
  in_range n_A n_B p_A p_B = true ->
  generate_data n_A n_B p_A p_B s =
    let a := draws 1 p_A (Z.to_nat n_A) s in
    let b := draws 1 p_B (Z.to_nat n_B) (snd a) in
    Ok (frame_scalar label_A (fst a) ++ frame_scalar label_B (fst b), snd b).
Proof.
  unfold in_range. rewrite !andb_true_iff, !Z.leb_le. intros [[[HA HB] HpA] HpB].
  unfold generate_data, bind. rewrite random_binomial_ok by assumption.
  destruct (draws 1 p_A (Z.to_nat n_A) s) as [xs s1].
  rewrite random_binomial_ok by assumption. cbn [fst snd].
  destruct (draws 1 p_B (Z.to_nat n_B) s1) as [ys s2].
  unfold ret, concat. cbn [List.concat fst snd]. rewrite app_nil_r. reflexivity.
Qed.
(** Outside the admitted range the first refused draw raises. *)
Lemma generate_data_out_of_range (n_A n_B : Z) (p_A p_B : float) (s : rng) :
  in_range n_A n_B p_A p_B = false ->
  generate_data n_A n_B p_A p_B s = Raise ValueError.
Proof.
  intros Hin. unfold in_range in Hin. unfold generate_data, bind.
  destruct (probability p_A) eqn:HpA.
  2:{ rewrite random_binomial_raise by auto. reflexivity. }
  destruct (Z.leb_spec 0 n_A) as [HA | HA].
  2:{ rewrite random_binomial_raise by auto. reflexivity. }
  rewrite random_binomial_ok by assumption.
  destruct (draws 1 p_A (Z.to_nat n_A) s) as [xs s1].
  rewrite random_binomial_raise; [reflexivity |].
  cbn [andb] in Hin. rewrite andb_true_r in Hin.
  apply andb_false_iff in Hin as [Hin | Hin]; [| auto].
  apply Z.leb_gt in Hin. auto.
Qed.
End Generator.

Lemma get_group_app (k : string) (a b : DataFrame) :
  get_group k (a ++ b) = get_group k a ++ get_group k b.
Proof. unfold get_group. rewrite filter_app, map_app. reflexivity. Qed.

Lemma get_group_frame_same (g : string) (xs : list Z) :
  get_group g (frame_scalar g xs) = xs.
Proof.
  unfold get_group, frame_scalar. induction xs as [| x xs IH]; [reflexivity |].
  cbn [map filter group]. rewrite String.eqb_refl. cbn [map converted]. f_equal. exact IH.
Qed.

Lemma get_group_frame_other (g k : string) (xs : list Z) :
  String.eqb g k = false -> get_group k (frame_scalar g xs) = [].
Proof.
  intros Hne. unfold get_group, frame_scalar. induction xs as [| x xs IH]; [reflexivity |].
  cbn [map filter group]. rewrite Hne. exact IH.
Qed.

(** The rows of a generated frame, group by group. *)
Lemma get_group_generated_A (xs ys : list Z) :
  get_group label_A (frame_scalar label_A xs ++ frame_scalar label_B ys) = xs.
Proof.
  rewrite get_group_app, get_group_frame_same, get_group_frame_other by reflexivity.
  apply app_nil_r.
Qed.

Lemma get_group_generated_B (xs ys : list Z) :
  get_group label_B (frame_scalar label_A xs ++ frame_scalar label_B ys) = ys.
Proof.
  rewrite get_group_app, get_group_frame_same, get_group_frame_other by reflexivity.
  reflexivity.
Qed.

Lemma generated_labels (xs ys : list Z) (r : row) :
  In r (frame_scalar label_A xs ++ frame_scalar label_B ys) ->
  group r = label_A \/ group r = label_B.
Proof.
  unfold frame_scalar. rewrite in_app_iff, !in_map_iff.
  intros [(x & <- & _) | (y & <- & _)]; auto.
Qed.

Lemma generated_outcomes (xs ys : list Z) (r : row) :
  In r (frame_scalar label_A xs ++ frame_scalar label_B ys) ->
  In (converted r) (xs ++ ys).
Proof.
  unfold frame_scalar. rewrite !in_app_iff, !in_map_iff.
  intros [(x & <- & ?) | (y & <- & ?)]; auto.
Qed.

Lemma generated_two_groups (xs ys : list Z) :
  xs <> [] -> ys <> [] ->
  two_groups label_A label_B (frame_scalar label_A xs ++ frame_scalar label_B ys).
Proof.
  intros Hx Hy. split; [reflexivity |]. split; [apply generated_labels |].
  destruct xs as [| x xs]; [congruence |]. destruct ys as [| y ys]; [congruence |].
  split.
  - exists {| group := label_A; converted := x |}. split; [| reflexivity].
    apply in_or_app. left. left. reflexivity.
  - exists {| group := label_B; converted := y |}. split; [| reflexivity].
    apply in_or_app. right. left. reflexivity.
Qed.

(* ================================================================== *)
(** * The summary table *)

(** Each row of the summary reports one occurring group: its sum, its
    count and their quotient. *)
Lemma summary_rows (df : DataFrame) :
  exists t, conversion_summary df = Ok t /\
    map label t = group_keys df /\
    forall row, In row t ->
      In (label row) (group_keys df) /\
      sum_ row = successes (label row) df /\
      count_ row = total (label row) df /\
      conversion_rate row = div (of_Z (sum_ row)) (of_Z (count_ row)).
Proof.
  unfold conversion_summary, groupby_agg. eexists. split; [reflexivity |]. split.
  - rewrite !map_map. cbn [fst label]. apply map_id.
  - intros row Hin. rewrite map_map in Hin. apply in_map_iff in Hin as (k & <- & Hk).
    cbn. auto.
Qed.

(* ================================================================== *)
(** * The test *)

Section Test.
Context `{NormalDist}.

(** On a dataset of two groups the test is handed their sums and
    counts, the smaller label first. *)
Lemma run_ab_test_two (g1 g2 : string) (df : DataFrame) :
  two_groups g1 g2 df ->
  run_ab_test df =
    proportions_ztest [successes g1 df; successes g2 df] [total g1 df; total g2 df].
Proof.
  intros Htwo. unfold run_ab_test, groupby_agg, values.
  rewrite (two_groups_keys g1 g2 df Htwo). reflexivity.
Qed.

Lemma two_groups_totals (g1 g2 : string) (df : DataFrame) :
  two_groups g1 g2 df -> 0 < total g1 df /\ 0 < total g2 df.
Proof.
  intros (_ & _ & H1 & H2). unfold total.
  apply count_occurs in H1, H2. lia.
Qed.

(** ** C1 *)

(** C1. On every dataset that holds exactly two groups, with success
    counts [x1], [x2] and totals [n1], [n2] (both positive),
    [run_ab_test] returns the pair [(z, p)] with [z = (p1 - p2) / SE],
    [p1 = x1 / n1], [p2 = x2 / n2], pooled proportion
    [(x1 + x2) / (n1 + n2)],
    [SE = sqrt (pooled * (1 - pooled) * (1 / n1 + 1 / n2))] and
    [p = 2 * (1 - Phi |z|)], every operation being the float64 one. *)
Theorem run_ab_test_formula (g1 g2 : string) (df : DataFrame) :
  two_groups g1 g2 df ->
  let x1 := successes g1 df in
  let x2 := successes g2 df in
  let n1 := total g1 df in
  let n2 := total g2 df in
  let p1 := div (of_Z x1) (of_Z n1) in
  let p2 := div (of_Z x2) (of_Z n2) in
  let pooled := div (of_Z (x1 + x2)) (of_Z (n1 + n2)) in
  let SE := sqrt (mul (mul pooled (sub one pooled))
                      (add (div one (of_Z n1)) (div one (of_Z n2)))) in
  let z := div (sub p1 p2) SE in
  let p := mul two (sub one (norm_cdf (abs z))) in
  0 < n1 /\ 0 < n2 /\ run_ab_test df = Ok (z, p).
Proof.
  intros Htwo. cbv zeta.
  destruct (two_groups_totals g1 g2 df Htwo) as [Hn1 Hn2].
  split; [exact Hn1 |]. split; [exact Hn2 |].
  rewrite (run_ab_test_two g1 g2 df Htwo). reflexivity.
Qed.
End Test.

Section Generated.
Context `{RandomState}.

(** ** C2 *)

(** C2. For [n_A, n_B > 0] and [p_A], [p_B] within the open interval
    (0, 1), [generate_data] returns a dataset whose summary has the
    two rows A and B, with counts exactly [n_A] and [n_B] and sums
    within [0, n_A] and [0, n_B]. *)
Theorem generate_data_summary (n_A n_B : Z) (p_A p_B : float) (s : rng) :
  binomial_in_range ->
  0 < n_A -> 0 < n_B ->
  open_probability p_A = true -> open_probability p_B = true ->
  exists df s' rA rB,
    generate_data n_A n_B p_A p_B s = Ok (df, s') /\
    conversion_summary df = Ok [rA; rB] /\
    label rA = label_A /\ count_ rA = n_A /\ 0 <= sum_ rA <= n_A /\
    label rB = label_B /\ count_ rB = n_B /\ 0 <= sum_ rB <= n_B.
Proof.
  intros Hlaw HA HB HpA HpB.
  apply open_probability_probability in HpA, HpB.
  assert (Hin : in_range n_A n_B p_A p_B = true).
  { unfold in_range. rewrite HpA, HpB, !andb_true_r, andb_true_iff, !Z.leb_le. lia. }
  rewrite (generate_data_ok _ _ _ _ s Hin). cbv zeta.
  pose proof (draws_length 1 p_A (Z.to_nat n_A) s) as LA.
  pose proof (draws_range 1 p_A (Z.to_nat n_A) s Hlaw ltac:(lia)) as RA.
  destruct (draws 1 p_A (Z.to_nat n_A) s) as [xs s1]. cbn [fst snd] in *.
  pose proof (draws_length 1 p_B (Z.to_nat n_B) s1) as LB.
  pose proof (draws_range 1 p_B (Z.to_nat n_B) s1 Hlaw ltac:(lia)) as RB.
  destruct (draws 1 p_B (Z.to_nat n_B) s1) as [ys s2]. cbn [fst snd] in *.
  assert (Hxs : xs <> []) by (intros ->; cbn in LA; lia).
  assert (Hys : ys <> []) by (intros ->; cbn in LB; lia).
  pose proof (two_groups_keys _ _ _ (generated_two_groups xs ys Hxs Hys)) as Hkeys.
  eexists _, s2, _, _. split; [reflexivity |].
  unfold conversion_summary, groupby_agg. rewrite Hkeys. cbn [map fst snd].
  rewrite get_group_generated_A, get_group_generated_B.
  split; [reflexivity |]. cbn [label count_ sum_].
  pose proof (sum_bounds xs RA). pose proof (sum_bounds ys RB).
  unfold count in *. repeat split; lia.
Qed.

(** ** C6 *)

(** C6. [generate_data] fails, with numpy's [ValueError], on a negative
    sample size or a probability outside [0, 1], and raises nothing on
    parameters in range. *)
Theorem generate_data_parameter_check (n_A n_B : Z) (p_A p_B : float) (s : rng) :
  if in_range n_A n_B p_A p_B
  then exists df s', generate_data n_A n_B p_A p_B s = Ok (df, s')
  else generate_data n_A n_B p_A p_B s = Raise ValueError.
Proof.
  destruct (in_range n_A n_B p_A p_B) eqn:Hin.
  - rewrite (generate_data_ok _ _ _ _ s Hin). cbv zeta. eauto.
  - unfold in_range in Hin. unfold generate_data, bind.
    destruct (probability p_A) eqn:HpA.
    2:{ rewrite random_binomial_raise by auto. reflexivity. }
    destruct (Z.leb_spec 0 n_A) as [HA | HA].
    2:{ rewrite random_binomial_raise by auto. reflexivity. }
    rewrite random_binomial_ok by assumption.
    destruct (draws 1 p_A (Z.to_nat n_A) s) as [xs s1].
    rewrite random_binomial_raise; [reflexivity |].
    cbn [andb] in Hin. rewrite andb_true_r in Hin.
    apply andb_false_iff in Hin as [Hin | Hin]; [| auto].
    apply Z.leb_gt in Hin. auto.
Qed.

(** ** C9 *)

(** C9. In the summary of a generated dataset (of fewer than [2^53]
    records) every group present in the dataset has a row, and the
    table has rows for no other group; every row has a positive count,
    reports as conversion rate the success count of its group divided
    by its total count, and that rate lies within [0, 1]. *)
Theorem conversion_rate_unit_interval
    (n_A n_B : Z) (p_A p_B : float) (s s' : rng) (df : DataFrame) :
  binomial_in_range ->
  n_A + n_B < 2 ^ 53 ->
  generate_data n_A n_B p_A p_B s = Ok (df, s') ->
  exists t, conversion_summary df = Ok t /\
    (forall g, (exists r, In r df /\ group r = g) ->
               exists row, In row t /\ label row = g) /\
    forall row, In row t ->
      (exists r, In r df /\ group r = label row) /\
      sum_ row = successes (label row) df /\
      count_ row = total (label row) df /\
      0 < count_ row /\
      conversion_rate row = div (of_Z (sum_ row)) (of_Z (count_ row)) /\
      leb pzero (conversion_rate row) = true /\
      leb (conversion_rate row) one = true.
Proof.
  intros Hlaw Hsize Hgen.
  destruct (in_range n_A n_B p_A p_B) eqn:Hin;
    [| rewrite (generate_data_out_of_range _ _ _ _ s Hin) in Hgen; discriminate].
  rewrite (generate_data_ok _ _ _ _ s Hin) in Hgen. cbv zeta in Hgen.
  unfold in_range in Hin. rewrite !andb_true_iff, !Z.leb_le in Hin.
  destruct Hin as [[[HA HB] _] _].
  pose proof (draws_length 1 p_A (Z.to_nat n_A) s) as LA.
  pose proof (draws_range 1 p_A (Z.to_nat n_A) s Hlaw ltac:(lia)) as RA.
  destruct (draws 1 p_A (Z.to_nat n_A) s) as [xs s1]. cbn [fst snd] in *.
  pose proof (draws_length 1 p_B (Z.to_nat n_B) s1) as LB.
  pose proof (draws_range 1 p_B (Z.to_nat n_B) s1 Hlaw ltac:(lia)) as RB.
  destruct (draws 1 p_B (Z.to_nat n_B) s1) as [ys s2]. cbn [fst snd] in *.
  injection Hgen as <- <-.
  set (df := frame_scalar label_A xs ++ frame_scalar label_B ys).
  destruct (summary_rows df) as (t & Ht & Hlabels & Hrows).
  exists t. split; [exact Ht |]. split.
  { intros g Hg. apply group_keys_In in Hg. rewrite <- Hlabels in Hg.
    apply in_map_iff in Hg as (row & Hl & Hrow). exists row. split; assumption. }
  intros row Hrow.
  destruct (Hrows row Hrow) as (Hkey & Hsum & Hcnt & Hrate).
  apply group_keys_In in Hkey. split; [exact Hkey |].
  pose proof (count_occurs _ _ Hkey) as Hpos.
  assert (Hb : 0 <= sum_ row <= count_ row).
  { rewrite Hsum, Hcnt. unfold successes, total. apply sum_bounds.
    intros x Hx. apply get_group_In in Hx as (r & Hr & _ & <-).
    apply generated_outcomes in Hr. apply in_app_or in Hr as [Hr | Hr]; auto. }
  assert (Hc : count_ row < 2 ^ 53).
  { rewrite Hcnt. unfold total. pose proof (count_le_length (label row) df) as Hle.
    unfold df in Hle at 2. unfold frame_scalar in Hle.
    rewrite length_app, !length_map in Hle. lia. }
  fold (total (label row) df) in Hpos. rewrite <- Hcnt in Hpos.
  repeat split; try assumption; try lia; rewrite Hrate;
    apply rate_within_unit; lia.
Qed.
End Generated.

(* ================================================================== *)
(** * Degenerate and exchanged inputs *)

Lemma two_groups_length (g1 g2 : string) (df : DataFrame) :
  two_groups g1 g2 df ->
  total g1 df + total g2 df = Z.of_nat (List.length df).
Proof.
  intros (Hlt & Hall & _ & _). apply compare_lt_neq in Hlt.
  unfold total, count, get_group. rewrite !length_map.
  induction df as [| r df IH]; [reflexivity |].
  specialize (IH (fun r' Hr' => Hall r' (or_intror Hr'))).
  cbn [filter List.length].
  destruct (Hall r (or_introl eq_refl)) as [Hr | Hr]; rewrite Hr, String.eqb_refl.
  - replace (String.eqb g1 g2) with false by (symmetry; apply String.eqb_neq; auto).
    cbn [List.length]. lia.
  - replace (String.eqb g2 g1) with false by (symmetry; apply String.eqb_neq; auto).
    cbn [List.length]. lia.
Qed.

Section Degenerate.
Context `{NormalDist}.

Lemma pvalue_nan : cdf_propagates_nan -> two_sided_pvalue nan = nan.
Proof.
  intros Hn. unfold cdf_propagates_nan in Hn. unfold two_sided_pvalue.
  change (abs nan) with nan. rewrite Hn. reflexivity.
Qed.

(** Both groups without a success: [0/0]. *)
Lemma ztest_no_success (n1 n2 : Z) :
  cdf_propagates_nan -> 0 < n1 -> 0 < n2 -> n1 + n2 < 2 ^ 53 ->
  proportions_ztest [0; 0] [n1; n2] = Ok (nan, nan).
Proof.
  intros Hnan H1 H2 Hb. unfold proportions_ztest.
  destruct (of_Z_shape n1 ltac:(lia)) as (m1 & e1 & -> & _).
  destruct (of_Z_shape n2 ltac:(lia)) as (m2 & e2 & -> & _).
  destruct (of_Z_shape (n1 + n2) ltac:(lia)) as (m & e & -> & _).
  set (f := add _ _).
  assert (Hz : div (sub (div (of_Z 0) (S754_finite false m1 e1))
                        (div (of_Z 0) (S754_finite false m2 e2)))
                   (sqrt (mul (mul (div (of_Z (0 + 0)) (S754_finite false m e))
                                   (sub one (div (of_Z (0 + 0)) (S754_finite false m e)))) f))
               = nan).
  { destruct f as [[] | [] | | [] ? ?]; reflexivity. }
  rewrite Hz, pvalue_nan by assumption. reflexivity.
Qed.

(** Every trial a success: [0/0] again. *)
Lemma ztest_all_success (n1 n2 : Z) :
  cdf_propagates_nan -> 0 < n1 -> 0 < n2 -> n1 + n2 < 2 ^ 53 ->
  proportions_ztest [n1; n2] [n1; n2] = Ok (nan, nan).
Proof.
  intros Hnan H1 H2 Hb. unfold proportions_ztest.
  destruct (of_Z_shape n1 ltac:(lia)) as (m1 & e1 & -> & _).
  destruct (of_Z_shape n2 ltac:(lia)) as (m2 & e2 & -> & _).
  destruct (of_Z_shape (n1 + n2) ltac:(lia)) as (m & e & -> & _).
  rewrite !div_self.
  set (f := add _ _).
  assert (Hz : div (sub one one) (sqrt (mul (mul one (sub one one)) f)) = nan).
  { destruct f as [[] | [] | | [] ? ?]; reflexivity. }
  rewrite Hz, pvalue_nan by assumption. reflexivity.
Qed.

(** ** C3 *)

(** C3, as amended.  When the pooled proportion is 0 or 1, that is when
    no trial or every trial of a two-group dataset is a success,
    [run_ab_test] raises nothing: it returns NaN for the statistic and
    NaN for the p-value. *)
Theorem run_ab_test_zero_variance (g1 g2 : string) (df : DataFrame) :
  cdf_propagates_nan ->
  two_groups g1 g2 df ->
  Z.of_nat (List.length df) < 2 ^ 53 ->
  (forall r, In r df -> converted r = 0) \/ (forall r, In r df -> converted r = 1) ->
  run_ab_test df = Ok (nan, nan).
Proof.
  intros Hnan Htwo Hlen Hall.
  rewrite (run_ab_test_two g1 g2 df Htwo).
  destruct (two_groups_totals g1 g2 df Htwo) as [Hn1 Hn2].
  pose proof (two_groups_length g1 g2 df Htwo) as Hsum.
  unfold successes. destruct Hall as [Hzero | Hone].
  - rewrite !sum_all_zero.
    + apply ztest_no_success; auto; lia.
    + intros x Hx. apply get_group_In in Hx as (r & Hr & _ & <-). auto.
    + intros x Hx. apply get_group_In in Hx as (r & Hr & _ & <-). auto.
  - rewrite !sum_all_one.
    + apply ztest_all_success; auto; lia.
    + intros x Hx. apply get_group_In in Hx as (r & Hr & _ & <-). auto.
    + intros x Hx. apply get_group_In in Hx as (r & Hr & _ & <-). auto.
Qed.

(** ** C4 *)

Lemma swap_label_1 (g1 g2 : string) : swap_label g1 g2 g1 = g2.
Proof. unfold swap_label. rewrite String.eqb_refl. reflexivity. Qed.

Lemma swap_label_2 (g1 g2 : string) : swap_label g1 g2 g2 = g1.
Proof.
  unfold swap_label. rewrite String.eqb_refl.
  destruct (String.eqb_spec g2 g1); congruence.
Qed.

Lemma get_group_swapped (g1 g2 : string) (df : DataFrame) :
  g1 <> g2 ->
  (forall r, In r df -> group r = g1 \/ group r = g2) ->
  get_group g1 (swap_groups g1 g2 df) = get_group g2 df /\
  get_group g2 (swap_groups g1 g2 df) = get_group g1 df.
Proof.
  intros Hne Hall.
  assert (E12 : String.eqb g1 g2 = false) by (apply String.eqb_neq; auto).
  assert (E21 : String.eqb g2 g1 = false) by (apply String.eqb_neq; auto).
  unfold get_group, swap_groups. induction df as [| r df IH]; [split; reflexivity |].
  destruct (IH (fun r' Hr' => Hall r' (or_intror Hr'))) as [IH1 IH2].
  cbn [map filter group].
  destruct (Hall r (or_introl eq_refl)) as [Hr | Hr]; rewrite Hr.
  - rewrite swap_label_1, ?String.eqb_refl, ?E21, ?E12. cbn [map converted].
    rewrite IH1, IH2. split; reflexivity.
  - rewrite swap_label_2, ?String.eqb_refl, ?E21, ?E12. cbn [map converted].
    rewrite IH1, IH2. split; reflexivity.
Qed.

Lemma swapped_two_groups (g1 g2 : string) (df : DataFrame) :
  two_groups g1 g2 df -> two_groups g1 g2 (swap_groups g1 g2 df).
Proof.
  intros (Hlt & Hall & (r1 & Hr1 & Hg1) & (r2 & Hr2 & Hg2)).
  split; [exact Hlt |]. unfold swap_groups. split; [| split].
  - intros r Hr. apply in_map_iff in Hr as (r' & <- & Hr'). cbn [group].
    destruct (Hall r' Hr') as [-> | ->]; rewrite ?swap_label_1, ?swap_label_2; auto.
  - exists {| group := swap_label g1 g2 (group r2); converted := converted r2 |}.
    split; [apply in_map_iff; exists r2; auto |].
    cbn [group]. rewrite Hg2. apply swap_label_2.
  - exists {| group := swap_label g1 g2 (group r1); converted := converted r1 |}.
    split; [apply in_map_iff; exists r1; auto |].
    cbn [group]. rewrite Hg1. apply swap_label_1.
Qed.

(** The test on exchanged samples: same [|z|], same p-value. *)
Lemma ztest_swap (x1 x2 n1 n2 : Z) :
  exists z p z' p',
    proportions_ztest [x1; x2] [n1; n2] = Ok (z, p) /\
    proportions_ztest [x2; x1] [n2; n1] = Ok (z', p') /\
    abs z' = abs z /\ p' = p.
Proof.
  unfold proportions_ztest. do 4 eexists. split; [reflexivity |]. split; [reflexivity |].
  rewrite (Z.add_comm x2 x1), (Z.add_comm n2 n1).
  rewrite (add_swap (div one (of_Z n2)) (div one (of_Z n1))).
  match goal with
  | |- abs (div ?a ?d) = abs (div ?b ?d) /\ _ =>
      assert (Habs : abs (div a d) = abs (div b d))
        by (apply abs_div_abs, abs_sub_swap)
  end.
  split; [exact Habs |]. unfold two_sided_pvalue. rewrite Habs. reflexivity.
Qed.

(** C4. Exchanging the two groups of a dataset leaves [|z|] and the
    p-value of [run_ab_test] unchanged. *)
Theorem run_ab_test_swap (g1 g2 : string) (df : DataFrame) :
  two_groups g1 g2 df ->
  exists z p z' p',
    run_ab_test df = Ok (z, p) /\
    run_ab_test (swap_groups g1 g2 df) = Ok (z', p') /\
    abs z' = abs z /\ p' = p.
Proof.
  intros Htwo.
  rewrite (run_ab_test_two g1 g2 df Htwo).
  rewrite (run_ab_test_two g1 g2 _ (swapped_two_groups g1 g2 df Htwo)).
  destruct Htwo as (Hlt & Hall & _).
  destruct (get_group_swapped g1 g2 df (compare_lt_neq _ _ Hlt) Hall) as [E1 E2].
  unfold successes, total. rewrite E1, E2. apply ztest_swap.
Qed.

(** ** C5 *)

Lemma single_group_keys (g : string) (df : DataFrame) :
  (forall r, In r df -> group r = g) ->
  group_keys df = match df with [] => [] | _ => [g] end.
Proof.
  intros Hall. unfold group_keys. induction df as [| r df IH]; [reflexivity |].
  cbn [map fold_right]. rewrite IH by (intros; apply Hall; right; auto).
  rewrite (Hall r) by (left; auto).
  destruct df; cbn [insert_key]; rewrite ?compare_refl; reflexivity.
Qed.

(** C5, as amended.  On a dataset without any record of a group,
    [conversion_summary] raises nothing: it returns a table that has no
    row for that group, and whose rows all have a count of at least
    one.  [run_ab_test] fails with the test's own errors: [ValueError]
    when a single group is left, [NotImplementedError] when no record
    is. *)
Theorem empty_group_outcome (g : string) (df : DataFrame) :
  (forall r, In r df -> group r <> g) ->
  (exists t, conversion_summary df = Ok t /\
             forall row, In row t -> label row <> g /\ 1 <= count_ row) /\
  (forall g', (forall r, In r df -> group r = g') ->
              run_ab_test df =
                Raise (match df with [] => NotImplementedError | _ => ValueError end)).
Proof.
  intros Hnone. split.
  - destruct (summary_rows df) as (t & Ht & _ & Hrows).
    exists t. split; [exact Ht |]. intros row Hrow.
    destruct (Hrows row Hrow) as (Hkey & _ & Hcnt & _).
    apply group_keys_In in Hkey. split.
    + destruct Hkey as (r & Hr & Hg). rewrite <- Hg. auto.
    + rewrite Hcnt. apply count_occurs. exact Hkey.
  - intros g' Hall. unfold run_ab_test, groupby_agg, values.
    rewrite (single_group_keys g' df Hall). destruct df; reflexivity.
Qed.
End Degenerate.

(* ================================================================== *)
(** * The dashboard *)

Lemma forallb_upto (P : Z -> bool) (lo : Z) (n : nat) :
  forallb P (upto lo n) = true ->
  forall z, lo <= z < lo + Z.of_nat n -> P z = true.
Proof.
  intros Hall z Hz. rewrite forallb_forall in Hall. apply Hall.
  unfold upto. apply in_map_iff. exists (Z.to_nat (z - lo)). split; [lia |].
  apply in_seq. lia.
Qed.

Lemma list_eqb_eq (a b : list Z) : list_eqb a b = true -> a = b.
Proof.
  revert b. induction a as [| x a IH]; intros [| y b]; cbn; try congruence.
  rewrite andb_true_iff, Z.eqb_eq. intros [-> Hab]. f_equal. auto.
Qed.

Lemma sizes_checked_all : forallb sizes_checked (upto 1 (Z.to_nat 10000)) = true.
Proof. vm_compute. reflexivity. Qed.

Lemma p_of_checked_all : forallb p_of_checked (upto 0 101) = true.
Proof. vm_compute. reflexivity. Qed.

Lemma sizes_facts (m : Z) :
  1 <= m <= 10000 ->
  List.length (linspace 100 m 20) = 20%nat /\
  Forall (fun n => 0 < n) (linspace 100 m 20) /\
  (100 <= m -> linspace 100 m 20 = spaced_floors 100 m 20).
Proof.
  intros Hm.
  pose proof (forallb_upto _ _ _ sizes_checked_all m ltac:(lia)) as Hc.
  unfold sizes_checked in Hc. rewrite !andb_true_iff in Hc.
  destruct Hc as [[Hlen Hpos] Heq]. split; [| split].
  - apply Nat.eqb_eq. exact Hlen.
  - apply Forall_forall. intros n Hn. rewrite forallb_forall in Hpos.
    apply Z.ltb_lt. apply Hpos. exact Hn.
  - intros H100. apply list_eqb_eq.
    destruct (Z.leb_spec 100 m); [exact Heq | lia].
Qed.

Lemma p_of_facts (pct : Z) :
  0 <= pct <= 100 ->
  probability (p_of pct) = true /\ ltb (of_Z 0) (p_of pct) = (0 <? pct).
Proof.
  intros Hp.
  pose proof (forallb_upto _ _ _ p_of_checked_all pct ltac:(lia)) as Hc.
  unfold p_of_checked in Hc. rewrite andb_true_iff in Hc.
  destruct Hc as [Hprob Hlt]. split; [exact Hprob |].
  apply Bool.eqb_prop. exact Hlt.
Qed.

Lemma valid_inputs_iff (i : inputs) :
  widget_range i ->
  valid_inputs i = true <-> 0 < n_A i /\ 0 < n_B i /\ 0 < pct_A i /\ 0 < pct_B i.
Proof.
  intros (_ & _ & HpA & HpB). unfold valid_inputs.
  destruct (p_of_facts _ HpA) as [_ ->]. destruct (p_of_facts _ HpB) as [_ ->].
  rewrite !andb_true_iff, !Z.ltb_lt. tauto.
Qed.

Section Sweep.
Context `{RandomState} `{NormalDist}.

(** One sweep point: fresh draws for both groups, then the test on
    their sums and lengths. *)
Lemma sweep_point_value (p_A p_B : float) (size : Z) (s : rng) :
  probability p_A = true -> probability p_B = true -> 0 <= size ->
  exists z,
    let a := draws 1 p_A (Z.to_nat size) s in
    let b := draws 1 p_B (Z.to_nat size) (snd a) in
    proportions_ztest [sum (fst a); sum (fst b)] [size; size]
      = Ok (z, two_sided_pvalue z) /\
    sweep_point p_A p_B size s = Ok (two_sided_pvalue z, snd b).
Proof.
  intros HpA HpB Hs. unfold sweep_point, bind.
  rewrite random_binomial_ok by assumption.
  pose proof (draws_length 1 p_A (Z.to_nat size) s) as LA.
  destruct (draws 1 p_A (Z.to_nat size) s) as [xs s1].
  rewrite random_binomial_ok by assumption. cbn [fst snd] in *.
  pose proof (draws_length 1 p_B (Z.to_nat size) s1) as LB.
  destruct (draws 1 p_B (Z.to_nat size) s1) as [ys s2]. cbn [fst snd] in *.
  unfold count. rewrite LA, LB, Z2Nat.id by assumption.
  unfold proportions_ztest, lift, ret. eexists. split; reflexivity.
Qed.

(** The sweep never raises; it yields one p-value per sample size. *)
Lemma sweep_runs (p_A p_B : float) (sizes : list Z) (s : rng) :
  probability p_A = true -> probability p_B = true ->
  Forall (fun n => 0 < n) sizes ->
  exists p_values s',
    sweep p_A p_B sizes s = Ok (p_values, s') /\
    List.length p_values = List.length sizes /\
    sweep_trace p_A p_B sizes s p_values s'.
Proof.
  intros HpA HpB Hpos. revert s.
  induction Hpos as [| size sizes Hsize _ IH]; intros s.
  - exists [], s. repeat split. constructor.
  - destruct (sweep_point_value p_A p_B size s HpA HpB ltac:(lia)) as (z & _ & Hpt).
    cbv zeta in Hpt.
    match type of Hpt with _ = Ok (_, ?s1) => destruct (IH s1) as (pvs & s' & Hrun & Hlen & Htr) end.
    exists (two_sided_pvalue z :: pvs), s'. split; [| split].
    + unfold sweep in *. cbn [for_each]. unfold bind at 1. rewrite Hpt.
      unfold bind at 1. rewrite Hrun. reflexivity.
    + cbn [List.length]. congruence.
    + econstructor; eassumption.
Qed.

(** The loop body is a simulation with both sample sizes equal to the
    size of the point, of which only the p-value is kept. *)
Lemma sweep_point_simulate (p_A p_B : float) (size : Z) (s : rng) :
  probability p_A = true -> probability p_B = true -> 0 < size ->
  sweep_point p_A p_B size s =
  (r <- simulate size size p_A p_B ;; ret (snd r)) s.
Proof.
  intros HpA HpB Hsize.
  assert (Hin : in_range size size p_A p_B = true).
  { unfold in_range. rewrite HpA, HpB, !andb_true_r, andb_true_iff, !Z.leb_le. lia. }
  unfold simulate, sweep_point, bind.
  rewrite (generate_data_ok _ _ _ _ s Hin). cbv zeta.
  rewrite random_binomial_ok by (auto; lia).
  pose proof (draws_length 1 p_A (Z.to_nat size) s) as LA.
  destruct (draws 1 p_A (Z.to_nat size) s) as [xs s1]. cbn [fst snd] in *.
  rewrite random_binomial_ok by (auto; lia).
  pose proof (draws_length 1 p_B (Z.to_nat size) s1) as LB.
  destruct (draws 1 p_B (Z.to_nat size) s1) as [ys s2]. cbn [fst snd] in *.
  assert (Hxs : xs <> []) by (intros ->; cbn in LA; lia).
  assert (Hys : ys <> []) by (intros ->; cbn in LB; lia).
  rewrite (run_ab_test_two _ _ _ (generated_two_groups xs ys Hxs Hys)).
  unfold successes, total. rewrite get_group_generated_A, get_group_generated_B.
  unfold proportions_ztest, lift, ret. reflexivity.
Qed.

(** The p-values of the sweep are those of separate runs of generation
    followed by the test, one run per sample size. *)
Lemma sweep_run_by_run (p_A p_B : float) (sizes : list Z) :
  probability p_A = true -> probability p_B = true ->
  Forall (fun n => 0 < n) sizes ->
  forall s p_values s',
    sweep p_A p_B sizes s = Ok (p_values, s') ->
    run_by_run p_A p_B sizes s p_values s'.
Proof.
  intros HpA HpB Hpos.
  induction Hpos as [| size sizes Hsize _ IH]; intros s pvs s' Hrun.
  - injection Hrun as <- <-. constructor.
  - unfold sweep in Hrun. cbn [for_each] in Hrun. unfold bind at 1 in Hrun.
    rewrite (sweep_point_simulate p_A p_B size s HpA HpB Hsize) in Hrun.
    unfold bind at 1 in Hrun.
    destruct (simulate size size p_A p_B s) as [[[z pv] s1] | e] eqn:Hsim;
      [| discriminate Hrun].
    unfold ret at 1 in Hrun. cbn [snd] in Hrun. unfold bind at 1 in Hrun.
    destruct (for_each (sweep_point p_A p_B) sizes s1) as [[pvs1 s2] | e] eqn:Hrest;
      [| discriminate Hrun].
    injection Hrun as <- <-.
    econstructor; [exact Hsim |]. apply IH. exact Hrest.
Qed.

(** ** C7 *)

(** C7, as amended.  When the larger of the two sample sizes is at
    least 100, the sweep yields 20 (sample size, p-value) pairs; the
    sample sizes are the integer parts of 20 evenly spaced points from
    100 to that maximum, so they start at 100, end at the maximum and
    never decrease; each pair comes from a fresh run of generation
    followed by the test: its p-value is the one [generate_data] with
    both sample sizes equal to the size of the point, then
    [run_ab_test], return on draws of their own, and no point hands
    anything to the next but the generator, in the state its own draws
    left it. *)
Theorem sweep_pairs (i : inputs) (s : rng) :
  widget_range i -> valid_inputs i = true ->
  100 <= Z.max (n_A i) (n_B i) ->
  sample_sizes i = spaced_floors 100 (Z.max (n_A i) (n_B i)) 20 /\
  hd 0 (sample_sizes i) = 100 /\
  last (sample_sizes i) 0 = Z.max (n_A i) (n_B i) /\
  Sorted Z.le (sample_sizes i) /\
  exists p_values s',
    sweep (p_of (pct_A i)) (p_of (pct_B i)) (sample_sizes i) s = Ok (p_values, s') /\
    List.length (combine (sample_sizes i) p_values) = 20%nat /\
    map fst (combine (sample_sizes i) p_values) = sample_sizes i /\
    run_by_run (p_of (pct_A i)) (p_of (pct_B i)) (sample_sizes i) s p_values s'.
Proof.
  intros Hw Hv Hmax.
  pose proof Hw as (HA & HB & HpA & HpB).
  set (m := Z.max (n_A i) (n_B i)) in *.
  assert (Hm : 1 <= m <= 10000) by lia.
  destruct (sizes_facts m Hm) as (Hlen & Hpos & Heq).
  specialize (Heq Hmax). unfold sample_sizes. fold m.
  destruct (p_of_facts _ HpA) as [QA _]. destruct (p_of_facts _ HpB) as [QB _].
  destruct (sweep_runs (p_of (pct_A i)) (p_of (pct_B i)) (linspace 100 m 20) s QA QB Hpos)
    as (pvs & s' & Hrun & Hlen' & _).
  pose proof (sweep_run_by_run _ _ _ QA QB Hpos s pvs s' Hrun) as Htr.
  split; [exact Heq |].
  assert (Hshape : hd 0 (spaced_floors 100 m 20) = 100 /\
                   last (spaced_floors 100 m 20) 0 = m /\
                   Sorted Z.le (spaced_floors 100 m 20)).
  { clearbody m. clear - Hmax.
    cbv [spaced_floors map seq hd last Z.of_nat Pos.of_succ_nat Pos.succ].
    change (20 - 1) with 19. split; [| split].
    - Z.div_mod_to_equations; lia.
    - Z.div_mod_to_equations; lia.
    - repeat (constructor;
              [| first [constructor; Z.div_mod_to_equations; lia | constructor]]).
      constructor. }
  rewrite Heq at 1 2 3. destruct Hshape as (Hhd & Hlast & Hsorted).
  split; [exact Hhd |]. split; [exact Hlast |]. split; [exact Hsorted |].
  exists pvs, s'. split; [exact Hrun |]. split; [| split; [| exact Htr]].
  - rewrite length_combine, Hlen', Hlen. reflexivity.
  - clear - Hlen'. revert pvs Hlen'.
    induction (linspace 100 m 20) as [| x l IH]; intros [| p pvs] Hl;
      cbn in *; try congruence. f_equal. apply IH. congruence.
Qed.
End Sweep.

Section Runs.
Context `{RandomState} `{NormalDist}.

(** With both sample sizes positive the simulation returns a pair. *)
Lemma simulate_runs (n_A n_B : Z) (p_A p_B : float) (s : rng) :
  in_range n_A n_B p_A p_B = true -> 0 < n_A -> 0 < n_B ->
  exists r s', simulate n_A n_B p_A p_B s = Ok (r, s').
Proof.
  intros Hin HA HB. unfold simulate, bind.
  rewrite (generate_data_ok _ _ _ _ s Hin). cbv zeta.
  pose proof (draws_length 1 p_A (Z.to_nat n_A) s) as LA.
  destruct (draws 1 p_A (Z.to_nat n_A) s) as [xs s1]. cbn [fst snd] in *.
  pose proof (draws_length 1 p_B (Z.to_nat n_B) s1) as LB.
  destruct (draws 1 p_B (Z.to_nat n_B) s1) as [ys s2]. cbn [fst snd] in *.
  assert (Hxs : xs <> []) by (intros ->; cbn in LA; lia).
  assert (Hys : ys <> []) by (intros ->; cbn in LB; lia).
  rewrite (run_ab_test_two _ _ _ (generated_two_groups xs ys Hxs Hys)).
  unfold proportions_ztest, lift. eauto.
Qed.

(** The frame the dashboard builds from its two columns is the one
    [generate_data] concatenates. *)
Lemma frame_columns_generated (xs ys : list Z) :
  frame_columns (repeat label_A (List.length xs) ++ repeat label_B (List.length ys))
                (xs ++ ys)
  = Ok (frame_scalar label_A xs ++ frame_scalar label_B ys).
Proof.
  unfold frame_columns. rewrite !length_app, !repeat_length, Nat.eqb_refl. f_equal.
  unfold frame_scalar. induction xs as [| x xs IH]; cbn [repeat List.length app combine map].
  - induction ys as [| y ys IH]; [reflexivity |].
    cbn [repeat List.length combine map fst snd]. f_equal. exact IH.
  - cbn [fst snd]. f_equal. exact IH.
Qed.

(** ** C10 *)

(** C10, as amended.  The dashboard computes only when its four inputs
    are strictly positive.  With an input at zero it draws nothing from
    the generator and shows the prompt alone.  Otherwise both groups are
    present with totals [n_A] and [n_B], every sample size of the sweep
    is positive, and the script runs to its end: the empty-group path,
    where a count of zero would be divided by, is not reachable. *)
Theorem dashboard_guard (i : inputs) (s : rng) :
  widget_range i ->
  (valid_inputs i = true <->
     0 < n_A i /\ 0 < n_B i /\ 0 < pct_A i /\ 0 < pct_B i) /\
  (valid_inputs i = false -> script i s = Ok ([info], s)) /\
  (valid_inputs i = true ->
     exists rates x_A x_B stat pval p_values s',
       script i s =
         Ok ([ write_rates rates; write_z stat; write_p pval;
               (if ltb pval (decimal 5 100) then success else warning);
               pyplot_bar rates pval;
               pyplot_line (sample_sizes i) p_values ], s') /\
       map fst rates = [label_A; label_B] /\
       proportions_ztest [x_A; x_B] [n_A i; n_B i] = Ok (stat, pval) /\
       Forall (fun n => 0 < n) (sample_sizes i) /\
       List.length p_values = 20%nat).
Proof.
  intros Hw. split; [apply valid_inputs_iff; exact Hw |]. split.
  - intros Hv. unfold script. rewrite Hv. reflexivity.
  - intros Hv. pose proof Hw as (HA & HB & HpA & HpB).
    apply (valid_inputs_iff i Hw) in Hv as Hpos. destruct Hpos as (PA & PB & _ & _).
    destruct (p_of_facts _ HpA) as [QA _]. destruct (p_of_facts _ HpB) as [QB _].
    destruct (sizes_facts (Z.max (n_A i) (n_B i)) ltac:(lia)) as (Hlen & Hsizes & _).
    fold (sample_sizes i) in Hlen, Hsizes.
    unfold script. rewrite Hv. unfold bind.
    rewrite random_binomial_ok by (auto; lia).
    pose proof (draws_length 1 (p_of (pct_A i)) (Z.to_nat (n_A i)) s) as LA.
    destruct (draws 1 (p_of (pct_A i)) (Z.to_nat (n_A i)) s) as [xs s1].
    rewrite random_binomial_ok by (auto; lia). cbn [fst snd] in *.
    pose proof (draws_length 1 (p_of (pct_B i)) (Z.to_nat (n_B i)) s1) as LB.
    destruct (draws 1 (p_of (pct_B i)) (Z.to_nat (n_B i)) s1) as [ys s2].
    cbn [fst snd] in *.
    rewrite <- LA, <- LB. rewrite frame_columns_generated. cbn [lift].
    assert (Hxs : xs <> []) by (intros ->; cbn in LA; lia).
    assert (Hys : ys <> []) by (intros ->; cbn in LB; lia).
    pose proof (two_groups_keys _ _ _ (generated_two_groups xs ys Hxs Hys)) as Hkeys.
    unfold groupby_agg, values. rewrite Hkeys. cbn [map fst snd].
    rewrite get_group_generated_A, get_group_generated_B.
    unfold proportions_ztest at 1. cbn [lift].
    destruct (sweep_runs (p_of (pct_A i)) (p_of (pct_B i)) (sample_sizes i) s2 QA QB Hsizes)
      as (pvs & s' & Hrun & Hlen' & _).
    rewrite Hrun. unfold ret.
    eexists _, (sum xs), (sum ys), _, _, pvs, s'.
    split; [reflexivity |]. split; [reflexivity |]. split.
    + unfold count. rewrite LA, LB, !Z2Nat.id by lia. reflexivity.
    + split; [exact Hsizes | congruence].
Qed.
End Runs.

(* ================================================================== *)
(** * The model at work on concrete inputs *)

Lemma lcg_binomial_range (n : nat) (p : float) (s : Z) :
  0 <= fst (lcg_binomial n p s) <= Z.of_nat n.
Proof.
  revert s. induction n as [| n IH]; intros s; cbn [lcg_binomial].
  - cbn. lia.
  - unfold lcg_bernoulli. specialize (IH (lcg_next s)).
    destruct (lcg_binomial n p (lcg_next s)) as [y s2]. cbn [fst] in *.
    destruct (ltb _ p); lia.
Qed.

Lemma lcg_in_range : @binomial_in_range lcg.
Proof.
  intros n p s Hn.
  change (binomial_draw n p s) with (lcg_binomial (Z.to_nat n) p s).
  pose proof (lcg_binomial_range (Z.to_nat n) p s) as Hr.
  rewrite Z2Nat.id in Hr by exact Hn. exact Hr.
Qed.

Lemma step_cdf_nan : @cdf_propagates_nan step_normal.
Proof. reflexivity. Qed.

Ltac two_groups_here :=
  split; [reflexivity |]; split;
  [ intros r Hr; cbn in Hr;
    repeat (destruct Hr as [<- | Hr]; [auto |]); destruct Hr
  | split; apply occurs_spec; reflexivity ].

Lemma mixed_two_groups : two_groups label_A label_B mixed.
Proof. two_groups_here. Qed.

Lemma no_success_two_groups : two_groups label_A label_B no_success.
Proof. two_groups_here. Qed.

(** Witness of C1: the test on [mixed]. *)
Lemma run_ab_test_formula_witness :
  two_groups label_A label_B mixed /\
  @run_ab_test step_normal mixed =
    Ok (S754_finite true 6166807764706703 (-52), S754_zero false).
Proof.
  split; [exact mixed_two_groups |].
  exact (proj2 (proj2 (@run_ab_test_formula step_normal label_A label_B mixed
                         mixed_two_groups))).
Defined.

(** Witness of C2: 3 and 4 draws of the congruential generator. *)
Lemma generate_data_summary_witness :
  @binomial_in_range lcg /\ 0 < 3 /\ 0 < 4 /\
  open_probability (decimal 30 100) = true /\
  open_probability (decimal 60 100) = true /\
  exists df s' rA rB,
    @generate_data lcg 3 4 (decimal 30 100) (decimal 60 100) 42 = Ok (df, s') /\
    conversion_summary df = Ok [rA; rB] /\
    label rA = label_A /\ count_ rA = 3 /\ 0 <= sum_ rA <= 3 /\
    label rB = label_B /\ count_ rB = 4 /\ 0 <= sum_ rB <= 4.
Proof.
  split; [exact lcg_in_range |]. split; [lia |]. split; [lia |].
  split; [reflexivity |]. split; [reflexivity |].
  apply (@generate_data_summary lcg 3 4 (decimal 30 100) (decimal 60 100) 42);
    [exact lcg_in_range | lia | lia | reflexivity | reflexivity].
Defined.

(** Counterexample to C3: with no success in either group the pooled
    proportion is 0, and the test raises nothing, whatever the
    distribution function: it returns NaN twice. *)
Lemma degenerate_input_not_raised :
  (~ exists (N : NormalDist) (e : exn), @run_ab_test N no_success = Raise e) /\
  @run_ab_test step_normal no_success = Ok (nan, nan).
Proof.
  split; [| reflexivity].
  intros (N & e & Hraise).
  rewrite (run_ab_test_two _ _ _ no_success_two_groups) in Hraise.
  unfold proportions_ztest in Hraise. discriminate Hraise.
Qed.

(** Witness of C3 as amended *)
Lemma run_ab_test_zero_variance_witness :
  @cdf_propagates_nan step_normal /\
  two_groups label_A label_B no_success /\
  Z.of_nat (List.length no_success) < 2 ^ 53 /\
  ((forall r, In r no_success -> converted r = 0) \/
   (forall r, In r no_success -> converted r = 1)) /\
  @run_ab_test step_normal no_success = Ok (nan, nan).
Proof.
  assert (Hzero : forall r, In r no_success -> converted r = 0).
  { intros r Hr. cbn in Hr. repeat (destruct Hr as [<- | Hr]; [reflexivity |]). destruct Hr. }
  split; [exact step_cdf_nan |]. split; [exact no_success_two_groups |].
  split; [cbn; lia |]. split; [left; exact Hzero |].
  apply (@run_ab_test_zero_variance step_normal label_A label_B no_success);
    [exact step_cdf_nan | exact no_success_two_groups | cbn; lia | left; exact Hzero].
Defined.

(** Witness of C4 *)
Lemma run_ab_test_swap_witness :
  two_groups label_A label_B mixed /\
  exists z p z' p',
    @run_ab_test step_normal mixed = Ok (z, p) /\
    @run_ab_test step_normal (swap_groups label_A label_B mixed) = Ok (z', p') /\
    abs z' = abs z /\ p' = p.
Proof.
  split; [exact mixed_two_groups |].
  apply (@run_ab_test_swap step_normal label_A label_B mixed mixed_two_groups).
Defined.

(** Counterexample to C5: group A has no record, and the summary is
    returned, with the row of B alone. *)
Lemma summary_without_group_not_raised :
  occurs label_A only_B = false /\
  conversion_summary only_B =
    Ok [ {| label := label_B; sum_ := 1; count_ := 2;
            conversion_rate := decimal 1 2 |} ].
Proof. split; reflexivity. Qed.

(** Witness of C5 as amended *)
Lemma empty_group_outcome_witness :
  (forall r, In r only_B -> group r <> label_A) /\
  (exists t, conversion_summary only_B = Ok t /\
             forall row, In row t -> label row <> label_A /\ 1 <= count_ row) /\
  (forall g', (forall r, In r only_B -> group r = g') ->
              @run_ab_test step_normal only_B = Raise ValueError).
Proof.
  assert (Hnone : forall r, In r only_B -> group r <> label_A).
  { intros r Hr. cbn in Hr.
    repeat (destruct Hr as [<- | Hr]; [discriminate |]). destruct Hr. }
  split; [exact Hnone |].
  exact (@empty_group_outcome step_normal label_A only_B Hnone).
Defined.

(** Counterexample to C7: the dashboard accepts sample sizes of 50, and
    the sweep then runs over sizes that go down from 100 to 50; and with
    a maximum of 1000 the sizes, being integer parts, are 47 and then 48
    apart. *)
Lemma sample_sizes_descending :
  widget_range small_inputs /\ valid_inputs small_inputs = true /\
  sample_sizes small_inputs =
    [100; 97; 94; 92; 89; 86; 84; 81; 78; 76; 73; 71; 68; 65; 63; 60; 57; 55; 52; 50] /\
  ~ Sorted Z.le (sample_sizes small_inputs) /\
  sample_sizes usual_inputs =
    [100; 147; 194; 242; 289; 336; 384; 431; 478; 526; 573; 621; 668; 715; 763; 810;
     857; 905; 952; 1000].
Proof.
  assert (E : sample_sizes small_inputs =
    [100; 97; 94; 92; 89; 86; 84; 81; 78; 76; 73; 71; 68; 65; 63; 60; 57; 55; 52; 50])
    by (vm_compute; reflexivity).
  split; [cbv [widget_range small_inputs n_A n_B pct_A pct_B]; lia |].
  split; [vm_compute; reflexivity |]. split; [exact E |].
  split; [| vm_compute; reflexivity].
  rewrite E. intros Hs. inversion Hs as [| ? ? _ Hd]. inversion Hd. lia.
Qed.

Lemma usual_inputs_range : widget_range usual_inputs.
Proof. cbv [widget_range usual_inputs n_A n_B pct_A pct_B]. lia. Qed.

(** Witness of C7 as amended *)
Lemma sweep_pairs_witness :
  widget_range usual_inputs /\ valid_inputs usual_inputs = true /\
  100 <= Z.max (n_A usual_inputs) (n_B usual_inputs) /\
  sample_sizes usual_inputs = spaced_floors 100 1000 20 /\
  hd 0 (sample_sizes usual_inputs) = 100 /\
  last (sample_sizes usual_inputs) 0 = 1000 /\
  Sorted Z.le (sample_sizes usual_inputs) /\
  exists p_values s',
    @sweep lcg step_normal (p_of 10) (p_of 12) (sample_sizes usual_inputs) 7
      = Ok (p_values, s') /\
    List.length (combine (sample_sizes usual_inputs) p_values) = 20%nat /\
    map fst (combine (sample_sizes usual_inputs) p_values) = sample_sizes usual_inputs /\
    @run_by_run lcg step_normal (p_of 10) (p_of 12)
      (sample_sizes usual_inputs) 7 p_values s'.
Proof.
  split; [exact usual_inputs_range |]. split; [vm_compute; reflexivity |].
  split; [cbn; lia |].
  apply (@sweep_pairs lcg step_normal usual_inputs 7);
    [exact usual_inputs_range | vm_compute; reflexivity | cbn; lia].
Defined.

(** Witness of C9: the summary of five and five draws. *)
Lemma conversion_rate_unit_interval_witness :
  @binomial_in_range lcg /\ 5 + 5 < 2 ^ 53 /\
  exists df s',
    @generate_data lcg 5 5 (decimal 30 100) (decimal 60 100) 42 = Ok (df, s') /\
    exists t, conversion_summary df = Ok t /\
      (forall g, (exists r, In r df /\ group r = g) ->
                 exists row, In row t /\ label row = g) /\
      forall row, In row t ->
        (exists r, In r df /\ group r = label row) /\
        sum_ row = successes (label row) df /\
        count_ row = total (label row) df /\
        0 < count_ row /\
        conversion_rate row = div (of_Z (sum_ row)) (of_Z (count_ row)) /\
        leb pzero (conversion_rate row) = true /\
        leb (conversion_rate row) one = true.
Proof.
  split; [exact lcg_in_range |]. split; [lia |].
  eexists _, _. split; [vm_compute; reflexivity |].
  eapply (@conversion_rate_unit_interval lcg 5 5 (decimal 30 100) (decimal 60 100) 42);
    [exact lcg_in_range | lia | vm_compute; reflexivity].
Defined.

(** Witness of C10 *)
Lemma dashboard_guard_witness :
  widget_range usual_inputs /\
  (valid_inputs usual_inputs = true <->
     0 < n_A usual_inputs /\ 0 < n_B usual_inputs /\
     0 < pct_A usual_inputs /\ 0 < pct_B usual_inputs) /\
  (valid_inputs usual_inputs = false ->
     @script lcg step_normal usual_inputs 7 = Ok ([info], 7)) /\
  (valid_inputs usual_inputs = true ->
     exists rates x_A x_B stat pval p_values s',
       @script lcg step_normal usual_inputs 7 =
         Ok ([ write_rates rates; write_z stat; write_p pval;
               (if ltb pval (decimal 5 100) then success else warning);
               pyplot_bar rates pval;
               pyplot_line (sample_sizes usual_inputs) p_values ], s') /\
       map fst rates = [label_A; label_B] /\
       @proportions_ztest step_normal [x_A; x_B] [n_A usual_inputs; n_B usual_inputs]
         = Ok (stat, pval) /\
       Forall (fun n => 0 < n) (sample_sizes usual_inputs) /\
       List.length p_values = 20%nat).
Proof.
  split; [exact usual_inputs_range |].
  exact (@dashboard_guard lcg step_normal usual_inputs 7 usual_inputs_range).
Defined.

(** The parameter check of C6 on the generator: a negative size and a
    probability above one are refused, and parameters in range are not. *)
Example generate_data_refuses_negative_size :
  @generate_data lcg (-1) 10 (decimal 10 100) (decimal 12 100) 42 = Raise ValueError.
Proof. reflexivity. Qed.

Example generate_data_refuses_probability :
  @generate_data lcg 10 10 (decimal 10 100) (decimal 120 100) 42 = Raise ValueError.
Proof. reflexivity. Qed.

Example generate_data_accepts_zero :
  @generate_data lcg 0 2 (decimal 0 100) (decimal 100 100) 42
  = Ok ([rowB 1; rowB 1], 1116302264).
Proof. vm_compute. reflexivity. Qed.

(** Counterexample to C10: the guard accepts sample sizes of 100 with
    both rates at 100 percent; every trial is then a success, the
    pooled variance is zero, and the test divides zero by zero: the
    dashboard writes NaN for the statistic and for the p-value. *)
Lemma dashboard_divides_zero_by_zero :
  widget_range certain_inputs /\ valid_inputs certain_inputs = true /\
  div (sub one one) (sqrt pzero) = nan /\
  exists rates rest s',
    @script lcg step_normal certain_inputs 5
    = Ok (write_rates rates :: write_z nan :: write_p nan :: warning :: rest, s').
Proof.
  split; [cbv [widget_range certain_inputs n_A n_B pct_A pct_B]; lia |].
  split; [vm_compute; reflexivity |]. split; [reflexivity |].
  eexists _, _, _. vm_compute. reflexivity.
Qed.

Example decimal_tenth : decimal 10 100 = S754_finite false 7205759403792794 (-56).
Proof. reflexivity. Qed.

(* ================================================================== *)
(** * Further properties: the order of the labels *)

Lemma ascii_compare_lt_trans (a b c : ascii) :
  Ascii.compare a b = Lt -> Ascii.compare b c = Lt -> Ascii.compare a c = Lt.
Proof.
  unfold Ascii.compare. rewrite !N.compare_lt_iff. apply N.lt_trans.
Qed.

Lemma compare_lt_trans (s1 s2 s3 : string) :
  String.compare s1 s2 = Lt -> String.compare s2 s3 = Lt -> String.compare s1 s3 = Lt.
Proof.
  revert s2 s3. induction s1 as [| a s1 IH]; intros [| b s2] [| c s3];
    cbn [String.compare]; try congruence.
  destruct (Ascii.compare a b) eqn:Eab; try discriminate;
    destruct (Ascii.compare b c) eqn:Ebc; try discriminate; intros H12 H23.
  - apply Ascii.compare_eq_iff in Eab, Ebc. subst.
    assert (Ascii.compare c c = Eq) as ->.
    { pose proof (Ascii.compare_antisym c c) as Ha.
      destruct (Ascii.compare c c); simpl in Ha; congruence. }
    eapply IH; eassumption.
  - apply Ascii.compare_eq_iff in Eab. subst. rewrite Ebc. reflexivity.
  - apply Ascii.compare_eq_iff in Ebc. subst. rewrite Eab. reflexivity.
  - rewrite (ascii_compare_lt_trans a b c Eab Ebc). reflexivity.
Qed.


Lemma insert_key_hd (k a : string) (ks : list string) :
  label_lt a k -> HdRel label_lt a ks -> HdRel label_lt a (insert_key k ks).
Proof.
  intros Hak Hd. destruct ks as [| k' ks]; cbn [insert_key].
  - constructor. exact Hak.
  - inversion Hd; subst. destruct (String.compare k k'); constructor; assumption.
Qed.

Lemma insert_key_sorted (k : string) (ks : list string) :
  Sorted label_lt ks -> Sorted label_lt (insert_key k ks).
Proof.
  induction ks as [| k' ks IH]; intros Hs; cbn [insert_key].
  - repeat constructor.
  - inversion Hs as [| ? ? Hs' Hd]; subst.
    destruct (String.compare k k') eqn:E.
    + exact Hs.
    + constructor; [exact Hs | constructor; exact E].
    + constructor; [apply IH; exact Hs' |].
      apply insert_key_hd; [| exact Hd].
      unfold label_lt. rewrite String.compare_antisym, E. reflexivity.
Qed.

Lemma group_keys_sorted (df : DataFrame) : Sorted label_lt (group_keys df).
Proof.
  unfold group_keys. induction df as [| r df IH]; cbn [map fold_right].
  - constructor.
  - apply insert_key_sorted. exact IH.
Qed.

Lemma label_lt_irrefl (a : string) : ~ label_lt a a.
Proof. unfold label_lt. rewrite compare_refl. discriminate. Qed.

Lemma label_lt_asym (a b : string) : label_lt a b -> ~ label_lt b a.
Proof.
  unfold label_lt. intros Hab Hba. rewrite String.compare_antisym, Hab in Hba. discriminate.
Qed.

Lemma sorted_strongly (l : list string) : Sorted label_lt l -> StronglySorted label_lt l.
Proof.
  apply Sorted_StronglySorted. intros a b c. apply compare_lt_trans.
Qed.

(** Two increasing lists with the same members are the same list. *)
Lemma sorted_unique (l1 l2 : list string) :
  StronglySorted label_lt l1 -> StronglySorted label_lt l2 ->
  (forall x, In x l1 <-> In x l2) -> l1 = l2.
Proof.
  revert l2. induction l1 as [| a l1 IH]; intros [| b l2] S1 S2 Hmem.
  - reflexivity.
  - destruct (proj2 (Hmem b) (or_introl eq_refl)).
  - destruct (proj1 (Hmem a) (or_introl eq_refl)).
  - inversion S1 as [| ? ? S1' F1]; inversion S2 as [| ? ? S2' F2]; subst.
    rewrite Forall_forall in F1, F2.
    assert (a = b) as <-.
    { destruct (proj1 (Hmem a) (or_introl eq_refl)) as [Hb | Ha]; [congruence |].
      destruct (proj2 (Hmem b) (or_introl eq_refl)) as [Ha' | Hb']; [congruence |].
      exfalso. exact (label_lt_asym _ _ (F1 b Hb') (F2 a Ha)). }
    f_equal. apply IH; try assumption. intros x. split; intros Hx.
    + destruct (proj1 (Hmem x) (or_intror Hx)) as [<- | Hx']; [| exact Hx'].
      exfalso. exact (label_lt_irrefl _ (F1 a Hx)).
    + destruct (proj2 (Hmem x) (or_intror Hx)) as [<- | Hx']; [| exact Hx'].
      exfalso. exact (label_lt_irrefl _ (F2 a Hx)).
Qed.

(** The keys only depend on which labels occur. *)
Lemma group_keys_same_labels (df df' : DataFrame) :
  (forall g, (exists r, In r df /\ group r = g) <-> (exists r, In r df' /\ group r = g)) ->
  group_keys df = group_keys df'.
Proof.
  intros Hsame. apply sorted_unique.
  - apply sorted_strongly, group_keys_sorted.
  - apply sorted_strongly, group_keys_sorted.
  - intros x. rewrite !group_keys_In. apply Hsame.
Qed.

Lemma permuted_group (k : string) (df df' : DataFrame) :
  Permutation df df' ->
  sum (get_group k df) = sum (get_group k df') /\
  count (get_group k df) = count (get_group k df').
Proof.
  unfold get_group.
  induction 1 as [| r l l' _ [IHs IHc] | r1 r2 l | l l' l'' _ [IH1 IH1'] _ [IH2 IH2']].
  - split; reflexivity.
  - cbn [filter]. destruct (String.eqb (group r) k); cbn [map]; [| auto].
    rewrite !sum_cons, !count_cons. split; congruence.
  - cbn [filter].
    destruct (String.eqb (group r1) k), (String.eqb (group r2) k); cbn [map];
      rewrite ?sum_cons, ?count_cons; split; lia.
  - split; congruence.
Qed.

(** X1. Reordering the records of a dataset changes neither the result
    of [run_ab_test] nor the table of [conversion_summary]. *)
Theorem reordering_invariance `{NormalDist} (df df' : DataFrame) :
  Permutation df df' ->
  run_ab_test df' = run_ab_test df /\
  conversion_summary df' = conversion_summary df.
Proof.
  intros Hperm.
  assert (Hkeys : group_keys df' = group_keys df).
  { apply group_keys_same_labels. intros g.
    split; intros (r & Hr & Hg); exists r; split; try assumption.
    - eapply Permutation_in; [apply Permutation_sym |]; eassumption.
    - eapply Permutation_in; eassumption. }
  assert (Hagg : forall (A : Type) (f : list Z -> A),
             (forall k, f (get_group k df') = f (get_group k df)) ->
             groupby_agg f df' = groupby_agg f df).
  { intros A f Hf. unfold groupby_agg. rewrite Hkeys. apply map_ext. intros k.
    rewrite Hf. reflexivity. }
  split.
  - unfold run_ab_test. rewrite (Hagg _ sum), (Hagg _ count); [reflexivity | |];
      intros k; symmetry; apply (permuted_group k df df' Hperm).
  - unfold conversion_summary. rewrite (Hagg _ (fun xs => (sum xs, count xs))); [reflexivity |].
    intros k. destruct (permuted_group k df df' Hperm) as [-> ->]. reflexivity.
Qed.

Lemma reordering_invariance_witness :
  Permutation mixed (rev mixed) /\
  @run_ab_test step_normal (rev mixed) = @run_ab_test step_normal mixed /\
  conversion_summary (rev mixed) = conversion_summary mixed.
Proof.
  split; [apply Permutation_rev |].
  exact (@reordering_invariance step_normal mixed (rev mixed) (Permutation_rev mixed)).
Defined.

(* ================================================================== *)
(** * Further properties: the test and the summary *)

Section MoreTest.
Context `{NormalDist}.

(** X2. [run_ab_test] returns a result exactly on the datasets that hold
    two groups; a dataset with three different labels is refused with
    [NotImplementedError]. *)
Theorem run_ab_test_answers_iff (df : DataFrame) :
  ((exists z p, run_ab_test df = Ok (z, p)) <-> exists g1 g2, two_groups g1 g2 df) /\
  (forall r1 r2 r3, In r1 df -> In r2 df -> In r3 df ->
     group r1 <> group r2 -> group r1 <> group r3 -> group r2 <> group r3 ->
     run_ab_test df = Raise NotImplementedError).
Proof.
  split; [split |].
  - intros (z & p & Hok).
    pose proof (group_keys_sorted df) as Hsorted.
    pose proof (fun k => group_keys_In k df) as Hin.
    unfold run_ab_test, groupby_agg, values in Hok.
    destruct (group_keys df) as [| a [| b [| c l]]]; cbn in Hok; try discriminate.
    exists a, b. inversion Hsorted as [| ? ? _ Hd]; subst. inversion Hd; subst.
    split; [assumption |]. split; [| split].
    + intros r Hr. destruct (proj2 (Hin (group r)) (ex_intro _ r (conj Hr eq_refl)))
        as [<- | [<- | []]]; auto.
    + apply Hin. left. reflexivity.
    + apply Hin. right. left. reflexivity.
  - intros (g1 & g2 & Htwo). rewrite (run_ab_test_two g1 g2 df Htwo).
    unfold proportions_ztest. eauto.
  - intros r1 r2 r3 H1 H2 H3 N12 N13 N23.
    pose proof (fun k => group_keys_In k df) as Hin.
    pose proof (proj2 (Hin _) (ex_intro _ r1 (conj H1 eq_refl))) as K1.
    pose proof (proj2 (Hin _) (ex_intro _ r2 (conj H2 eq_refl))) as K2.
    pose proof (proj2 (Hin _) (ex_intro _ r3 (conj H3 eq_refl))) as K3.
    unfold run_ab_test, groupby_agg, values.
    destruct (group_keys df) as [| a [| b [| c l]]]; cbn in K1, K2, K3 |- *;
      try reflexivity; exfalso; intuition congruence.
Qed.

(** X9. On a dataset of two groups the summary has exactly two rows;
    their sums and counts are the arrays handed to the test, and the
    numerator of [z] is the difference of the two conversion rates the
    summary reports. *)
Theorem summary_feeds_test (g1 g2 : string) (df : DataFrame) :
  two_groups g1 g2 df ->
  exists r1 r2 SE,
    conversion_summary df = Ok [r1; r2] /\
    label r1 = g1 /\ label r2 = g2 /\
    run_ab_test df = proportions_ztest [sum_ r1; sum_ r2] [count_ r1; count_ r2] /\
    run_ab_test df =
      Ok (div (sub (conversion_rate r1) (conversion_rate r2)) SE,
          two_sided_pvalue (div (sub (conversion_rate r1) (conversion_rate r2)) SE)).
Proof.
  intros Htwo. unfold conversion_summary, groupby_agg.
  rewrite (two_groups_keys g1 g2 df Htwo). cbn [map fst snd].
  do 3 eexists. split; [reflexivity |]. cbn [label sum_ count_ conversion_rate].
  split; [reflexivity |]. split; [reflexivity |].
  rewrite (run_ab_test_two g1 g2 df Htwo). split; reflexivity.
Qed.
End MoreTest.

(** X8. On a dataset of binary outcomes (fewer than [2^53] records) the
    chart of [visualize_results] has one bar per group that occurs, and
    every bar lies within the limits [0, 1] set for the y axis. *)
Theorem bars_within_limits (df : DataFrame) (pval : float) :
  binary_outcomes df -> Z.of_nat (List.length df) < 2 ^ 53 ->
  map fst (bars (visualize_results df pval)) = group_keys df /\
  forall g v, In (g, v) (bars (visualize_results df pval)) ->
    (exists r, In r df /\ group r = g) /\
    leb (fst (ylim (visualize_results df pval))) v = true /\
    leb v (snd (ylim (visualize_results df pval))) = true.
Proof.
  intros Hbin Hlen. cbn [visualize_results bars ylim fst snd]. unfold groupby_agg. split.
  - rewrite map_map. cbn [fst]. apply map_id.
  - intros g v Hin. apply in_map_iff in Hin as (k & Hk & Hkey).
    injection Hk as <- <-. apply group_keys_In in Hkey. split; [exact Hkey |].
    unfold mean. apply rate_within_unit.
    + apply sum_bounds. intros x Hx. apply get_group_In in Hx as (r & Hr & _ & <-).
      destruct (Hbin r Hr); lia.
    + pose proof (count_occurs _ _ Hkey). pose proof (count_le_length k df). lia.
Qed.

Lemma mixed_binary : binary_outcomes mixed.
Proof.
  intros r Hr. cbn in Hr.
  repeat (destruct Hr as [<- | Hr]; [cbn; auto |]). destruct Hr.
Qed.

Lemma bars_within_limits_witness :
  binary_outcomes mixed /\ Z.of_nat (List.length mixed) < 2 ^ 53 /\
  map fst (bars (visualize_results mixed pzero)) = group_keys mixed /\
  forall g v, In (g, v) (bars (visualize_results mixed pzero)) ->
    (exists r, In r mixed /\ group r = g) /\
    leb (fst (ylim (visualize_results mixed pzero))) v = true /\
    leb v (snd (ylim (visualize_results mixed pzero))) = true.
Proof.
  split; [exact mixed_binary |]. split; [cbn; lia |].
  apply (bars_within_limits mixed pzero mixed_binary). cbn. lia.
Defined.

Lemma summary_feeds_test_witness :
  two_groups label_A label_B mixed /\
  exists r1 r2 SE,
    conversion_summary mixed = Ok [r1; r2] /\
    label r1 = label_A /\ label r2 = label_B /\
    @run_ab_test step_normal mixed
      = @proportions_ztest step_normal [sum_ r1; sum_ r2] [count_ r1; count_ r2] /\
    @run_ab_test step_normal mixed =
      Ok (div (sub (conversion_rate r1) (conversion_rate r2)) SE,
          @two_sided_pvalue step_normal
            (div (sub (conversion_rate r1) (conversion_rate r2)) SE)).
Proof.
  split; [exact mixed_two_groups |].
  exact (@summary_feeds_test step_normal label_A label_B mixed mixed_two_groups).
Defined.

(* ================================================================== *)
(** * Further properties: the generator and the two scripts *)

Section MoreRuns.
Context `{RandomState} `{NormalDist}.

(** X10. On parameters in range, zero sizes included, [generate_data]
    returns [n_A + n_B] records: the records of A first, then those of
    B, [n_A] and [n_B] of them, every outcome being 0 or 1. *)
Theorem generate_data_shape (n_A n_B : Z) (p_A p_B : float) (s s' : rng) (df : DataFrame) :
  binomial_in_range ->
  generate_data n_A n_B p_A p_B s = Ok (df, s') ->
  df = frame_scalar label_A (get_group label_A df) ++
       frame_scalar label_B (get_group label_B df) /\
  total label_A df = n_A /\ total label_B df = n_B /\
  Z.of_nat (List.length df) = n_A + n_B /\
  binary_outcomes df.
Proof.
  intros Hlaw Hgen.
  destruct (in_range n_A n_B p_A p_B) eqn:Hin;
    [| rewrite (generate_data_out_of_range _ _ _ _ s Hin) in Hgen; discriminate].
  rewrite (generate_data_ok _ _ _ _ s Hin) in Hgen. cbv zeta in Hgen.
  unfold in_range in Hin. rewrite !andb_true_iff, !Z.leb_le in Hin.
  destruct Hin as [[[HA HB] _] _].
  pose proof (draws_length 1 p_A (Z.to_nat n_A) s) as LA.
  pose proof (draws_range 1 p_A (Z.to_nat n_A) s Hlaw ltac:(lia)) as RA.
  destruct (draws 1 p_A (Z.to_nat n_A) s) as [xs s1]. cbn [fst snd] in *.
  pose proof (draws_length 1 p_B (Z.to_nat n_B) s1) as LB.
  pose proof (draws_range 1 p_B (Z.to_nat n_B) s1 Hlaw ltac:(lia)) as RB.
  destruct (draws 1 p_B (Z.to_nat n_B) s1) as [ys s2]. cbn [fst snd] in *.
  injection Hgen as <- <-. unfold total.
  rewrite get_group_generated_A, get_group_generated_B.
  split; [reflexivity |]. unfold count.
  split; [lia |]. split; [lia |]. split.
  - unfold frame_scalar. rewrite length_app, !length_map. lia.
  - intros r Hr. apply generated_outcomes in Hr.
    apply in_app_or in Hr as [Hr | Hr]; [apply RA in Hr | apply RB in Hr]; lia.
Qed.

(** The script, step by step. *)
Lemma main_returns (n_A n_B : Z) (p_A p_B : float) (s s' : rng)
    (df : DataFrame) (stat pval : float) (t : list summary_row) :
  generate_data n_A n_B p_A p_B s = Ok (df, s') ->
  run_ab_test df = Ok (stat, pval) ->
  conversion_summary df = Ok t ->
  main n_A n_B p_A p_B s =
    Ok ([ print_summary t; print_z stat; print_p pval;
          (if ltb pval (decimal 5 100) then print_significant else print_not_significant);
          show_plot (visualize_results df pval) ], s').
Proof.
  intros Hgen Htest Hsum. unfold main, bind. rewrite Hgen. cbn [lift].
  rewrite Htest, Hsum. reflexivity.
Qed.

Lemma main_raises_in_test (n_A n_B : Z) (p_A p_B : float) (s s' : rng)
    (df : DataFrame) (e : exn) :
  generate_data n_A n_B p_A p_B s = Ok (df, s') ->
  run_ab_test df = Raise e ->
  main n_A n_B p_A p_B s = Raise e.
Proof.
  intros Hgen Htest. unfold main, bind. rewrite Hgen. cbn [lift].
  rewrite Htest. reflexivity.
Qed.

Lemma draws_none (n : Z) (p : float) (s : rng) : draws n p (Z.to_nat 0) s = ([], s).
Proof. reflexivity. Qed.

Lemma draws_some (p : float) (size : Z) (s : rng) :
  0 < size -> fst (draws 1 p (Z.to_nat size) s) <> [].
Proof.
  intros Hs Hnil. pose proof (draws_length 1 p (Z.to_nat size) s) as L.
  rewrite Hnil in L. cbn in L. lia.
Qed.

(** X6. The script has no guard of its own.  It prints its five results
    exactly when the parameters are in range and both sample sizes are
    positive; out of range it fails in the generator ([ValueError]),
    with one size at zero in the test ([ValueError]), with both at zero
    in the test as well ([NotImplementedError]); in each failure nothing
    is printed. *)
Theorem main_outcomes (n_A n_B : Z) (p_A p_B : float) (s : rng) :
  (in_range n_A n_B p_A p_B = false -> main n_A n_B p_A p_B s = Raise ValueError) /\
  (in_range n_A n_B p_A p_B = true ->
     (0 < n_A -> 0 < n_B ->
        exists df t stat pval s',
          generate_data n_A n_B p_A p_B s = Ok (df, s') /\
          map label t = [label_A; label_B] /\
          main n_A n_B p_A p_B s =
            Ok ([ print_summary t; print_z stat; print_p pval;
                  (if ltb pval (decimal 5 100)
                   then print_significant else print_not_significant);
                  show_plot (visualize_results df pval) ], s')) /\
     (n_A = 0 -> 0 < n_B -> main n_A n_B p_A p_B s = Raise ValueError) /\
     (0 < n_A -> n_B = 0 -> main n_A n_B p_A p_B s = Raise ValueError) /\
     (n_A = 0 -> n_B = 0 -> main n_A n_B p_A p_B s = Raise NotImplementedError)).
Proof.
  split.
  - intros Hin. unfold main, bind.
    rewrite (generate_data_out_of_range _ _ _ _ s Hin). reflexivity.
  - intros Hin. pose proof (generate_data_ok _ _ _ _ s Hin) as Hgen. cbv zeta in Hgen.
    split; [| split; [| split]].
    + intros HA HB.
      pose proof (draws_some p_A n_A s HA) as Hxs.
      destruct (draws 1 p_A (Z.to_nat n_A) s) as [xs s1]. cbn [fst snd] in *.
      pose proof (draws_some p_B n_B s1 HB) as Hys.
      destruct (draws 1 p_B (Z.to_nat n_B) s1) as [ys s2]. cbn [fst snd] in *.
      pose proof (generated_two_groups xs ys Hxs Hys) as Htwo.
      destruct (summary_rows (frame_scalar label_A xs ++ frame_scalar label_B ys))
        as (t & Ht & Hlabels & _).
      rewrite (two_groups_keys _ _ _ Htwo) in Hlabels.
      do 5 eexists. split; [exact Hgen |]. split; [exact Hlabels |].
      eapply main_returns; [exact Hgen | | exact Ht].
      rewrite (run_ab_test_two _ _ _ Htwo). reflexivity.
    + intros -> HB. rewrite draws_none in Hgen. cbn [fst snd app frame_scalar map] in Hgen.
      pose proof (draws_some p_B n_B s HB) as Hys.
      destruct (draws 1 p_B (Z.to_nat n_B) s) as [ys s2]. cbn [fst snd] in *.
      eapply main_raises_in_test; [exact Hgen |].
      unfold run_ab_test, groupby_agg, values.
      rewrite (single_group_keys label_B).
      * destruct ys; [congruence | reflexivity].
      * intros r Hr. apply in_map_iff in Hr as (y & <- & _). reflexivity.
    + intros HA ->.
      pose proof (draws_some p_A n_A s HA) as Hxs.
      destruct (draws 1 p_A (Z.to_nat n_A) s) as [xs s1]. cbn [fst snd] in *.
      rewrite draws_none in Hgen. cbn [fst snd frame_scalar map] in Hgen.
      rewrite app_nil_r in Hgen.
      eapply main_raises_in_test; [exact Hgen |].
      unfold run_ab_test, groupby_agg, values.
      rewrite (single_group_keys label_A).
      * destruct xs; [congruence | reflexivity].
      * intros r Hr. apply in_map_iff in Hr as (x & <- & _). reflexivity.
    + intros -> ->. rewrite !draws_none in Hgen. cbn in Hgen.
      eapply main_raises_in_test; [exact Hgen | reflexivity].
Qed.

(** X7. When the generated outcomes are all alike (no success at all,
    or nothing but successes), the script prints NaN for the statistic
    and for the p-value, and the verdict "not significant". *)
Theorem main_on_zero_variance (n_A n_B : Z) (p_A p_B : float) (s s' : rng) (df : DataFrame) :
  cdf_propagates_nan ->
  0 < n_A -> 0 < n_B -> n_A + n_B < 2 ^ 53 ->
  generate_data n_A n_B p_A p_B s = Ok (df, s') ->
  (forall r, In r df -> converted r = 0) \/ (forall r, In r df -> converted r = 1) ->
  exists t,
    main n_A n_B p_A p_B s =
      Ok ([ print_summary t; print_z nan; print_p nan; print_not_significant;
            show_plot (visualize_results df nan) ], s').
Proof.
  intros Hnan HA HB Hsize Hgen Hall.
  destruct (in_range n_A n_B p_A p_B) eqn:Hin;
    [| rewrite (generate_data_out_of_range _ _ _ _ s Hin) in Hgen; discriminate].
  pose proof Hgen as Hgen'.
  rewrite (generate_data_ok _ _ _ _ s Hin) in Hgen'. cbv zeta in Hgen'.
  pose proof (draws_length 1 p_A (Z.to_nat n_A) s) as LA.
  pose proof (draws_some p_A n_A s HA) as Hxs.
  destruct (draws 1 p_A (Z.to_nat n_A) s) as [xs s1]. cbn [fst snd] in *.
  pose proof (draws_length 1 p_B (Z.to_nat n_B) s1) as LB.
  pose proof (draws_some p_B n_B s1 HB) as Hys.
  destruct (draws 1 p_B (Z.to_nat n_B) s1) as [ys s2]. cbn [fst snd] in *.
  injection Hgen' as Hdf _.
  pose proof (generated_two_groups xs ys Hxs Hys) as Htwo. rewrite Hdf in Htwo.
  assert (Hlen : Z.of_nat (List.length df) < 2 ^ 53).
  { rewrite <- Hdf. unfold frame_scalar. rewrite length_app, !length_map. lia. }
  destruct (summary_rows df) as (t & Ht & _).
  exists t.
  rewrite (main_returns _ _ _ _ s s' df nan nan t Hgen); [reflexivity | | exact Ht].
  rewrite (run_ab_test_two _ _ _ Htwo).
  destruct (two_groups_totals _ _ _ Htwo) as [T1 T2].
  pose proof (two_groups_length _ _ _ Htwo) as Tsum.
  unfold successes. destruct Hall as [Hzero | Hone].
  - rewrite !sum_all_zero.
    + apply ztest_no_success; auto; lia.
    + intros x Hx. apply get_group_In in Hx as (r & Hr & _ & <-). auto.
    + intros x Hx. apply get_group_In in Hx as (r & Hr & _ & <-). auto.
  - rewrite !sum_all_one.
    + apply ztest_all_success; auto; lia.
    + intros x Hx. apply get_group_In in Hx as (r & Hr & _ & <-). auto.
    + intros x Hx. apply get_group_In in Hx as (r & Hr & _ & <-). auto.
Qed.

(** X4. A sweep point is a balanced simulation: for a positive size it
    returns the p-value that [generate_data] with both sizes equal to it,
    followed by [run_ab_test], returns from the same generator state. *)
Theorem sweep_point_is_balanced_run (p_A p_B : float) (size : Z) (s : rng) :
  probability p_A = true -> probability p_B = true -> 0 < size ->
  sweep_point p_A p_B size s =
  (r <- simulate size size p_A p_B ;; ret (snd r)) s.
Proof.
  intros HpA HpB Hsize.
  assert (Hin : in_range size size p_A p_B = true).
  { unfold in_range. rewrite HpA, HpB, !andb_true_r, andb_true_iff, !Z.leb_le. lia. }
  unfold simulate, sweep_point, bind.
  rewrite (generate_data_ok _ _ _ _ s Hin). cbv zeta.
  rewrite random_binomial_ok by (auto; lia).
  pose proof (draws_some p_A size s Hsize) as Hxs.
  destruct (draws 1 p_A (Z.to_nat size) s) as [xs s1]. cbn [fst snd] in *.
  rewrite random_binomial_ok by (auto; lia).
  pose proof (draws_some p_B size s1 Hsize) as Hys.
  destruct (draws 1 p_B (Z.to_nat size) s1) as [ys s2]. cbn [fst snd] in *.
  rewrite (run_ab_test_two _ _ _ (generated_two_groups xs ys Hxs Hys)).
  unfold successes, total. rewrite get_group_generated_A, get_group_generated_B.
  unfold proportions_ztest, lift, ret. reflexivity.
Qed.

(** X3. The dashboard and the script agree: on inputs the dashboard
    accepts and from the same generator state, both show the same
    statistic, p-value and verdict; the rates the dashboard writes are
    the bars of the script's chart and the conversion rates of its
    summary; the dashboard then runs its sweep from the state in which
    the script ends. *)
Theorem dashboard_agrees_with_script (i : inputs) (s : rng) :
  widget_range i -> valid_inputs i = true ->
  exists df t stat pval s1 p_values s',
    main (n_A i) (n_B i) (p_of (pct_A i)) (p_of (pct_B i)) s =
      Ok ([ print_summary t; print_z stat; print_p pval;
            (if ltb pval (decimal 5 100) then print_significant else print_not_significant);
            show_plot (visualize_results df pval) ], s1) /\
    script i s =
      Ok ([ write_rates (bars (visualize_results df pval));
            write_z stat; write_p pval;
            (if ltb pval (decimal 5 100) then success else warning);
            pyplot_bar (bars (visualize_results df pval)) pval;
            pyplot_line (sample_sizes i) p_values ], s') /\
    bars (visualize_results df pval) = map (fun r => (label r, conversion_rate r)) t /\
    sweep (p_of (pct_A i)) (p_of (pct_B i)) (sample_sizes i) s1 = Ok (p_values, s').
Proof.
  intros Hw Hv. pose proof Hw as (HA & HB & HpA & HpB).
  apply (valid_inputs_iff i Hw) in Hv as Hpos. destruct Hpos as (PA & PB & _ & _).
  destruct (p_of_facts _ HpA) as [QA _]. destruct (p_of_facts _ HpB) as [QB _].
  destruct (sizes_facts (Z.max (n_A i) (n_B i)) ltac:(lia)) as (_ & Hsizes & _).
  fold (sample_sizes i) in Hsizes.
  assert (Hin : in_range (n_A i) (n_B i) (p_of (pct_A i)) (p_of (pct_B i)) = true).
  { unfold in_range. rewrite QA, QB, !andb_true_r, andb_true_iff, !Z.leb_le. lia. }
  pose proof (generate_data_ok _ _ _ _ s Hin) as Hgen. cbv zeta in Hgen.
  unfold script. rewrite Hv. unfold bind.
  rewrite random_binomial_ok by (auto; lia).
  pose proof (draws_length 1 (p_of (pct_A i)) (Z.to_nat (n_A i)) s) as LA.
  pose proof (draws_some (p_of (pct_A i)) (n_A i) s PA) as Hxs.
  destruct (draws 1 (p_of (pct_A i)) (Z.to_nat (n_A i)) s) as [xs s1].
  rewrite random_binomial_ok by (auto; lia). cbn [fst snd] in *.
  pose proof (draws_length 1 (p_of (pct_B i)) (Z.to_nat (n_B i)) s1) as LB.
  pose proof (draws_some (p_of (pct_B i)) (n_B i) s1 PB) as Hys.
  destruct (draws 1 (p_of (pct_B i)) (Z.to_nat (n_B i)) s1) as [ys s2].
  cbn [fst snd] in *.
  rewrite <- LA, <- LB. rewrite frame_columns_generated. cbn [lift].
  set (df := frame_scalar label_A xs ++ frame_scalar label_B ys) in *.
  pose proof (generated_two_groups xs ys Hxs Hys) as Htwo. fold df in Htwo.
  fold (run_ab_test df). 
  assert (Htest : exists stat pval, run_ab_test df = Ok (stat, pval)).
  { rewrite (run_ab_test_two _ _ _ Htwo). unfold proportions_ztest. eauto. }
  destruct Htest as (stat & pval & Htest). rewrite Htest. cbn [lift].
  destruct (sweep_runs (p_of (pct_A i)) (p_of (pct_B i)) (sample_sizes i) s2 QA QB Hsizes)
    as (pvs & s' & Hrun & _ & _).
  rewrite Hrun. unfold ret.
  exists df, (map (fun gsc =>
                 {| label := fst gsc; sum_ := fst (snd gsc); count_ := snd (snd gsc);
                    conversion_rate := div (of_Z (fst (snd gsc))) (of_Z (snd (snd gsc))) |})
              (groupby_agg (fun xs => (sum xs, count xs)) df)),
         stat, pval, s2, pvs, s'.
  split; [| split; [| split]].
  - apply main_returns; [exact Hgen | exact Htest | reflexivity].
  - reflexivity.
  - cbn [visualize_results bars]. unfold groupby_agg. rewrite !map_map. reflexivity.
  - exact Hrun.
Qed.
End MoreRuns.

(* ================================================================== *)
(** * Further properties: the sample sizes of the sweep *)

Lemma low_sizes_checked_all : forallb low_sizes_checked (upto 1 99) = true.
Proof. vm_compute. reflexivity. Qed.

Lemma non_increasing_sorted (l : list Z) : non_increasing l = true -> Sorted Z.ge l.
Proof.
  induction l as [| x [| y l] IH]; intros Hl.
  - constructor.
  - repeat constructor.
  - cbn [non_increasing] in Hl. apply andb_true_iff in Hl as [Hxy Hl].
    constructor; [apply IH; exact Hl |]. constructor. apply Z.leb_le in Hxy. lia.
Qed.

(** X5. Over the whole range of the dashboard, the 20 sample sizes of
    the sweep start at 100, end at the larger of the two sample sizes
    and stay between these two values; when that maximum is at most 100
    they never increase. *)
Theorem sample_sizes_between (i : inputs) :
  widget_range i -> valid_inputs i = true ->
  List.length (sample_sizes i) = 20%nat /\
  hd 0 (sample_sizes i) = 100 /\
  last (sample_sizes i) 0 = Z.max (n_A i) (n_B i) /\
  Forall (fun n => Z.min 100 (Z.max (n_A i) (n_B i)) <= n
                   <= Z.max 100 (Z.max (n_A i) (n_B i))) (sample_sizes i) /\
  (Z.max (n_A i) (n_B i) <= 100 -> Sorted Z.ge (sample_sizes i)).
Proof.
  intros Hw Hv. pose proof Hw as (HA & HB & _ & _).
  apply (valid_inputs_iff i Hw) in Hv. destruct Hv as (PA & PB & _ & _).
  unfold sample_sizes. set (m := Z.max (n_A i) (n_B i)).
  assert (Hm : 1 <= m <= 10000) by lia. clearbody m. clear - Hm.
  destruct (sizes_facts m Hm) as (Hlen & _ & Heq).
  split; [exact Hlen |].
  destruct (Z.lt_ge_cases m 100) as [Hlow | Hhigh].
  - pose proof (forallb_upto _ _ _ low_sizes_checked_all m ltac:(lia)) as Hc.
    unfold low_sizes_checked in Hc. rewrite !andb_true_iff, !Z.eqb_eq in Hc.
    destruct Hc as [[[Hhd Hlast] Hall] Hdesc].
    split; [exact Hhd |]. split; [exact Hlast |]. split.
    + apply Forall_forall. intros n Hn. rewrite forallb_forall in Hall.
      specialize (Hall n Hn). rewrite andb_true_iff, !Z.leb_le in Hall. lia.
    + intros _. apply non_increasing_sorted. exact Hdesc.
  - rewrite (Heq Hhigh).
    cbv [spaced_floors map seq hd last Z.of_nat Pos.of_succ_nat Pos.succ].
    change (20 - 1) with 19.
    split; [Z.div_mod_to_equations; lia |]. split; [Z.div_mod_to_equations; lia |].
    split.
    + repeat (constructor; [Z.div_mod_to_equations; lia |]). constructor.
    + intros Hle. assert (m = 100) as -> by lia.
      repeat (constructor; [| first [constructor; cbn; lia | constructor]]). constructor.
Qed.

Lemma sample_sizes_between_witness :
  widget_range small_inputs /\ valid_inputs small_inputs = true /\
  List.length (sample_sizes small_inputs) = 20%nat /\
  hd 0 (sample_sizes small_inputs) = 100 /\
  last (sample_sizes small_inputs) 0 = Z.max (n_A small_inputs) (n_B small_inputs) /\
  Forall (fun n => Z.min 100 (Z.max (n_A small_inputs) (n_B small_inputs)) <= n
                   <= Z.max 100 (Z.max (n_A small_inputs) (n_B small_inputs)))
         (sample_sizes small_inputs) /\
  (Z.max (n_A small_inputs) (n_B small_inputs) <= 100 ->
   Sorted Z.ge (sample_sizes small_inputs)).
Proof.
  assert (Hw : widget_range small_inputs)
    by (cbv [widget_range small_inputs n_A n_B pct_A pct_B]; lia).
  split; [exact Hw |]. split; [vm_compute; reflexivity |].
  apply (sample_sizes_between small_inputs Hw). vm_compute. reflexivity.
Defined.

(** Witnesses on the congruential generator *)

Lemma generate_data_shape_witness :
  @binomial_in_range lcg /\
  exists df s',
    @generate_data lcg 0 3 (decimal 30 100) (decimal 60 100) 42 = Ok (df, s') /\
    df = frame_scalar label_A (get_group label_A df) ++
         frame_scalar label_B (get_group label_B df) /\
    total label_A df = 0 /\ total label_B df = 3 /\
    Z.of_nat (List.length df) = 0 + 3 /\
    binary_outcomes df.
Proof.
  split; [exact lcg_in_range |].
  eexists _, _. split; [vm_compute; reflexivity |].
  eapply (@generate_data_shape lcg 0 3 (decimal 30 100) (decimal 60 100) 42);
    [exact lcg_in_range | vm_compute; reflexivity].
Defined.

Lemma main_on_zero_variance_witness :
  @cdf_propagates_nan step_normal /\ 0 < 3 /\ 0 < 4 /\ 3 + 4 < 2 ^ 53 /\
  exists df s',
    @generate_data lcg 3 4 (decimal 0 100) (decimal 0 100) 42 = Ok (df, s') /\
    ((forall r, In r df -> converted r = 0) \/ (forall r, In r df -> converted r = 1)) /\
    exists t,
      @main lcg step_normal 3 4 (decimal 0 100) (decimal 0 100) 42 =
        Ok ([ print_summary t; print_z nan; print_p nan; print_not_significant;
              show_plot (visualize_results df nan) ], s').
Proof.
  split; [exact step_cdf_nan |]. split; [lia |]. split; [lia |]. split; [lia |].
  eexists _, _. split; [vm_compute; reflexivity |].
  assert (Hzero : forall r, In r (frame_scalar label_A [0; 0; 0] ++
                                  frame_scalar label_B [0; 0; 0; 0]) -> converted r = 0).
  { intros r Hr. cbn in Hr.
    repeat (destruct Hr as [<- | Hr]; [reflexivity |]). destruct Hr. }
  split; [left; exact Hzero |].
  eapply (@main_on_zero_variance lcg step_normal 3 4 (decimal 0 100) (decimal 0 100) 42);
    [exact step_cdf_nan | lia | lia | lia | vm_compute; reflexivity | left; exact Hzero].
Defined.

Lemma sweep_point_is_balanced_run_witness :
  probability (decimal 10 100) = true /\ probability (decimal 12 100) = true /\ 0 < 100 /\
  @sweep_point lcg step_normal (decimal 10 100) (decimal 12 100) 100 7 =
  (r <- @simulate lcg step_normal 100 100 (decimal 10 100) (decimal 12 100) ;; ret (snd r)) 7.
Proof.
  split; [reflexivity |]. split; [reflexivity |]. split; [lia |].
  apply (@sweep_point_is_balanced_run lcg step_normal (decimal 10 100) (decimal 12 100) 100 7);
    [reflexivity | reflexivity | lia].
Defined.

Lemma dashboard_agrees_with_script_witness :
  widget_range usual_inputs /\ valid_inputs usual_inputs = true /\
  exists df t stat pval s1 p_values s',
    @main lcg step_normal (n_A usual_inputs) (n_B usual_inputs)
          (p_of (pct_A usual_inputs)) (p_of (pct_B usual_inputs)) 7 =
      Ok ([ print_summary t; print_z stat; print_p pval;
            (if ltb pval (decimal 5 100) then print_significant else print_not_significant);
            show_plot (visualize_results df pval) ], s1) /\
    @script lcg step_normal usual_inputs 7 =
      Ok ([ write_rates (bars (visualize_results df pval));
            write_z stat; write_p pval;
            (if ltb pval (decimal 5 100) then success else warning);
            pyplot_bar (bars (visualize_results df pval)) pval;
            pyplot_line (sample_sizes usual_inputs) p_values ], s') /\
    bars (visualize_results df pval) = map (fun r => (label r, conversion_rate r)) t /\
    @sweep lcg step_normal (p_of (pct_A usual_inputs)) (p_of (pct_B usual_inputs))
           (sample_sizes usual_inputs) s1 = Ok (p_values, s').
Proof.
  split; [exact usual_inputs_range |]. split; [vm_compute; reflexivity |].
  apply (@dashboard_agrees_with_script lcg step_normal usual_inputs 7 usual_inputs_range).
  vm_compute. reflexivity.
Defined.
